(** * HandsOff: the face-touch monitor of [docs/app.js]

    A shallow embedding of the [HandsOff] class: the proximity test
    ([isHandNearFace]), the per-frame evaluation ([processFrame]), the touch
    state machine ([updateTouchState]) and the alarm ([startAlarm],
    [stopAlarm]), together with the event handlers that drive them.

    Numbers.  The program is written once over a type of numbers with a
    number system ([NumberSystem]): the conversion of an integer, the
    four operations, the comparison [<=] and [toFixed(1)].  [binary64]
    is the number system of JavaScript: IEEE 754 double precision, every
    operation rounded to nearest even, computed by the primitive floats of
    Rocq.  Everything that is proved for every number system holds of the
    code, through [binary64]; the concrete runs are computed in
    [binary64].  [exact], the rationals, is the idealisation in which the
    geometry of the face box is stated (C8).

    Time.  A reading of [Date.now()] is a time value of ECMAScript: an
    integer number of milliseconds, of magnitude at most 8.64e15, which a
    double holds exactly.

    Effects.  Methods mutate [this] and may end abruptly with a TypeError
    (a property read on [undefined] or [null]); they are written in a state
    monad with an abrupt completion that keeps the state reached so far. *)

From Stdlib Require Import ZArith QArith Qround Qabs Lqa Lia.
From Stdlib Require Import List String Bool DecimalString.
From Stdlib Require PrimFloat SpecFloat FloatOps.
Import ListNotations.

(** * Numbers *)

(** The type of numbers, and what the program asks of it.  [num_eq] is
    "the same number"; [num_negative] is the test [x < 0] that [toFixed]
    makes to print the sign. *)
Class Numbers : Type := num : Type.

Class NumberSystem {C : Numbers} : Type := {
  of_int : Z -> num;
  num_add : num -> num -> num;
  num_sub : num -> num -> num;
  num_mul : num -> num -> num;
  num_div : num -> num -> num;
  num_leb : num -> num -> bool;
  toFixed1 : num -> string;
  num_negative : num -> bool;
  num_eq : num -> num -> Prop;
  num_eq_refl : forall a, num_eq a a;
  num_add_eq : forall a b c d,
      num_eq a b -> num_eq c d -> num_eq (num_add a c) (num_add b d);
  num_sub_eq : forall a b c d,
      num_eq a b -> num_eq c d -> num_eq (num_sub a c) (num_sub b d);
  num_leb_eq : forall a b c d,
      num_eq a b -> num_eq c d -> num_leb a c = num_leb b d;
  toFixed1_negative : forall a,
      num_negative a = true ->
      exists digits, toFixed1 a = ("-" ++ digits)%string
}.

Declare Scope num_scope.
Delimit Scope num_scope with num.
Infix "+" := num_add : num_scope.
Infix "-" := num_sub : num_scope.
Infix "*" := num_mul : num_scope.
Infix "/" := num_div : num_scope.
Infix "<=?" := num_leb : num_scope.

(** A decimal literal with [places] digits after the point, such as
    [0.08]: the quotient of two integers, which in [binary64] is the double
    nearest to the decimal. *)
Definition decimal {C : Numbers} {N : NumberSystem}
    (digits : Z) (places : nat) : num :=
  (of_int digits / of_int (10 ^ Z.of_nat places))%num.

(** ** Printing with one decimal *)

Definition string_of_nonneg (n : Z) : string :=
  NilZero.string_of_uint (N.to_uint (Z.to_N n)).

(** The digits [toFixed(1)] prints for the magnitude [q]: the integer [n]
    for which [n / 10] is closest to [q] (the larger one on a tie), with
    one digit after the point. *)
Definition fixed1_digits (q : Q) : string :=
  let n := Qfloor (q * 10 + (1 # 2)) in
  (string_of_nonneg (n / 10) ++ "." ++ string_of_nonneg (n mod 10))%string.

(** ** Exact arithmetic *)

Definition toFixed1_exact (q : Q) : string :=
  ((if Qle_bool 0 q then "" else "-") ++ fixed1_digits (Qabs q))%string.

Definition rationals : Numbers := Q.

Definition exact : @NumberSystem rationals.
Proof.
  refine {| of_int := inject_Z;
            num_add := Qplus;
            num_sub := Qminus;
            num_mul := Qmult;
            num_div := Qdiv;
            num_leb := Qle_bool;
            toFixed1 := toFixed1_exact;
            num_negative := fun q => negb (Qle_bool 0 q);
            num_eq := Qeq |}.
  - intros a. reflexivity.
  - intros a b c d E1 E2. now rewrite E1, E2.
  - intros a b c d E1 E2. now rewrite E1, E2.
  - intros a b c d E1 E2. apply eq_true_iff_eq.
    rewrite !Qle_bool_iff, E1, E2. reflexivity.
  - intros a H. unfold toFixed1_exact.
    destruct (Qle_bool 0 a); [discriminate|]. eexists. reflexivity.
Defined.

(** ** IEEE 754 double precision *)

(** The double nearest to an integer; exact below [2 ^ 53], as for every
    value of [Date.now()]. *)
Definition float_of_int (z : Z) : PrimFloat.float :=
  FloatOps.SF2Prim
    (SpecFloat.binary_normalize FloatOps.prec FloatOps.emax z 0 false).

(** The magnitude [m * 2 ^ e] of a finite double, exactly. *)
Definition magnitude (m : positive) (e : Z) : Q :=
  match e with
  | Z0 => Zpos m # 1
  | Zpos p => (Zpos m * Z.pow_pos 2 p) # 1
  | Zneg p => Zpos m # (Pos.pow 2 p)
  end.

(** The rational a double stands for, when it is finite, in lowest
    terms. *)
Definition float_value (f : PrimFloat.float) : option Q :=
  match FloatOps.Prim2SF f with
  | SpecFloat.S754_zero _ => Some 0%Q
  | SpecFloat.S754_finite s m e =>
      Some (Qred (if s then Qopp (magnitude m e) else magnitude m e))
  | _ => None
  end.

(** [Number.prototype.toFixed(1)] on a double of magnitude below [1e21],
    as every difference of two clock readings in seconds is: the sign
    when [x < 0], then the digits for the exact magnitude.  (From [1e21]
    on, [toFixed] prints the exponent notation of [ToString], which is not
    represented; it begins with the sign in the same way.) *)
Definition toFixed1_float (f : PrimFloat.float) : string :=
  match FloatOps.Prim2SF f with
  | SpecFloat.S754_nan => "NaN"
  | SpecFloat.S754_infinity s => if s then "-Infinity" else "Infinity"
  | SpecFloat.S754_zero _ => "0.0"
  | SpecFloat.S754_finite s m e =>
      ((if s then "-" else "") ++ fixed1_digits (magnitude m e))%string
  end.

Definition float_negative (f : PrimFloat.float) : bool :=
  match FloatOps.Prim2SF f with
  | SpecFloat.S754_infinity s => s
  | SpecFloat.S754_finite s _ _ => s
  | _ => false
  end.

Definition doubles : Numbers := PrimFloat.float.

Definition binary64 : @NumberSystem doubles.
Proof.
  refine {| of_int := float_of_int;
            num_add := PrimFloat.add;
            num_sub := PrimFloat.sub;
            num_mul := PrimFloat.mul;
            num_div := PrimFloat.div;
            num_leb := PrimFloat.leb;
            toFixed1 := toFixed1_float;
            num_negative := float_negative;
            num_eq := eq |}.
  - reflexivity.
  - intros a b c d -> ->. reflexivity.
  - intros a b c d -> ->. reflexivity.
  - intros a b c d -> ->. reflexivity.
  - intros a H. unfold toFixed1_float, float_negative in *.
    destruct (FloatOps.Prim2SF a) as [| [|] | | [|] m e];
      try discriminate; eexists; reflexivity.
Defined.

(** * How a computation ends *)

(** How a call ends: normally with a value, or abruptly with a TypeError. *)
Inductive Completion (A : Type) :=
| Normal (a : A)
| TypeError.

Arguments Normal {A} a.
Arguments TypeError {A}.


(** * The program *)

Section Program.

Context {C : Numbers} {N : NumberSystem}.

Local Open Scope num_scope.

(** [ToNumber] on a field that holds a number or [null]: [null] is [+0]. *)
Definition toNumber (v : option num) : num :=
  match v with
  | Some q => q
  | None => of_int 0
  end.

(** ** Detection results (MediaPipe) *)

Record Landmark := mkLandmark { x : num; y : num }.

Record BoundingBox := mkBoundingBox {
  xCenter : num;
  yCenter : num;
  width : num;
  height : num
}.

Record Detection := mkDetection { boundingBox : BoundingBox }.

(** A property that may be absent is an [option]; an array is a [list]. *)
Record FaceResults := mkFaceResults {
  detections : option (list Detection)
}.

Record HandResults := mkHandResults {
  multiHandLandmarks : option (list (list Landmark))
}.

(** ** The page and the host *)

(** Calls made on the 2D context of the canvas, in order. *)
Inductive CtxCall :=
| clearRect (left top w h : num)
| strokeStyle (colour : string)
| lineWidth (w : num)
| strokeRect (left top w h : num)
| beginPath
| moveTo (px py : num)
| lineTo (px py : num)
| stroke
| fillStyle (colour : string)
| arc (px py radius : num)        (* arc(px, py, radius, 0, 2 * Math.PI) *)
| fill.

(** Method entries, recorded to state how often a method is called.
    No method reads this record. *)
Inductive Call :=
| call_updateTouchState (touchingNow : bool)
| call_startAlarm
| call_stopAlarm.

(** The elements of the page that the evaluation writes. *)
Record Dom := mkDom {
  statusText : string;          (* statusText.textContent *)
  statusDot : bool;             (* statusDot.classList has 'touching' *)
  alertOverlay : bool;          (* alertOverlay.classList has 'active' *)
  durationText : string;        (* durationText.textContent *)
  canvas_width : num;
  canvas_height : num;
  ctx : list CtxCall
}.

(** What the browser holds for the page.  A timer registered by
    [setInterval] runs the closure [playBeep] of one [startAlarm] call; the
    closure's variable [freqIndex] is kept with the timer.  Timer ids and
    audio nodes are positive, hence truthy. *)
Record Host := mkHost {
  intervals : list (positive * nat);   (* active timers: id, freqIndex *)
  destination : list positive;   (* nodes connected to the destination *)
  next_id : positive;            (* next fresh timer or node id *)
  beeps : list num;                (* frequencies of the oscillators started *)
  console : list string;         (* console.log lines *)
  calls : list Call              (* method entries, see [Call] *)
}.

Inductive AudioContext := TheAudioContext.

(** The fields of [this].  The camera, the video element, the two detectors
    and the control widgets are collaborators whose life cycle is not
    modelled; their callbacks are the events below. *)
Record HandsOff := mkHandsOff {
  (* Settings *)
  touchThreshold : num;
  proximityThreshold : num;
  enableSound : bool;
  (* State *)
  isRunning : bool;
  touchStartTime : option num;
  isTouching : bool;
  alertActive : bool;
  (* MediaPipe *)
  lastHandResults : option HandResults;
  lastFaceResults : option FaceResults;
  (* Audio *)
  audioContext : option AudioContext;
  alarmOscillator : option positive;
  alarmGain : option positive;
  alarmInterval : option positive;
  (* DOM elements and the browser *)
  dom : Dom;
  host : Host
}.

(** Field assignment. *)
Definition set_statusText (v : string) (s : Dom) : Dom :=
  mkDom v (statusDot s) (alertOverlay s) (durationText s) (canvas_width s)
    (canvas_height s) (ctx s).

Definition set_statusDot (v : bool) (s : Dom) : Dom :=
  mkDom (statusText s) v (alertOverlay s) (durationText s) (canvas_width s)
    (canvas_height s) (ctx s).

Definition set_alertOverlay (v : bool) (s : Dom) : Dom :=
  mkDom (statusText s) (statusDot s) v (durationText s) (canvas_width s)
    (canvas_height s) (ctx s).

Definition set_durationText (v : string) (s : Dom) : Dom :=
  mkDom (statusText s) (statusDot s) (alertOverlay s) v (canvas_width s)
    (canvas_height s) (ctx s).

Definition set_canvas_width (v : num) (s : Dom) : Dom :=
  mkDom (statusText s) (statusDot s) (alertOverlay s) (durationText s) v
    (canvas_height s) (ctx s).

Definition set_canvas_height (v : num) (s : Dom) : Dom :=
  mkDom (statusText s) (statusDot s) (alertOverlay s) (durationText s)
    (canvas_width s) v (ctx s).

Definition set_ctx (v : list CtxCall) (s : Dom) : Dom :=
  mkDom (statusText s) (statusDot s) (alertOverlay s) (durationText s)
    (canvas_width s) (canvas_height s) v.


Definition set_intervals (v : list (positive * nat)) (s : Host) : Host :=
  mkHost v (destination s) (next_id s) (beeps s) (console s) (calls s).

Definition set_destination (v : list positive) (s : Host) : Host :=
  mkHost (intervals s) v (next_id s) (beeps s) (console s) (calls s).

Definition set_next_id (v : positive) (s : Host) : Host :=
  mkHost (intervals s) (destination s) v (beeps s) (console s) (calls s).

Definition set_beeps (v : list num) (s : Host) : Host :=
  mkHost (intervals s) (destination s) (next_id s) v (console s) (calls s).

Definition set_console (v : list string) (s : Host) : Host :=
  mkHost (intervals s) (destination s) (next_id s) (beeps s) v (calls s).

Definition set_calls (v : list Call) (s : Host) : Host :=
  mkHost (intervals s) (destination s) (next_id s) (beeps s) (console s) v.


Definition set_touchThreshold (v : num) (s : HandsOff) : HandsOff :=
  mkHandsOff v (proximityThreshold s) (enableSound s) (isRunning s)
    (touchStartTime s) (isTouching s) (alertActive s) (lastHandResults s)
    (lastFaceResults s) (audioContext s) (alarmOscillator s) (alarmGain s)
    (alarmInterval s) (dom s) (host s).

Definition set_proximityThreshold (v : num) (s : HandsOff) : HandsOff :=
  mkHandsOff (touchThreshold s) v (enableSound s) (isRunning s)
    (touchStartTime s) (isTouching s) (alertActive s) (lastHandResults s)
    (lastFaceResults s) (audioContext s) (alarmOscillator s) (alarmGain s)
    (alarmInterval s) (dom s) (host s).

Definition set_enableSound (v : bool) (s : HandsOff) : HandsOff :=
  mkHandsOff (touchThreshold s) (proximityThreshold s) v (isRunning s)
    (touchStartTime s) (isTouching s) (alertActive s) (lastHandResults s)
    (lastFaceResults s) (audioContext s) (alarmOscillator s) (alarmGain s)
    (alarmInterval s) (dom s) (host s).

Definition set_isRunning (v : bool) (s : HandsOff) : HandsOff :=
  mkHandsOff (touchThreshold s) (proximityThreshold s) (enableSound s) v
    (touchStartTime s) (isTouching s) (alertActive s) (lastHandResults s)
    (lastFaceResults s) (audioContext s) (alarmOscillator s) (alarmGain s)
    (alarmInterval s) (dom s) (host s).

Definition set_touchStartTime (v : option num) (s : HandsOff) : HandsOff :=
  mkHandsOff (touchThreshold s) (proximityThreshold s) (enableSound s)
    (isRunning s) v (isTouching s) (alertActive s) (lastHandResults s)
    (lastFaceResults s) (audioContext s) (alarmOscillator s) (alarmGain s)
    (alarmInterval s) (dom s) (host s).

Definition set_isTouching (v : bool) (s : HandsOff) : HandsOff :=
  mkHandsOff (touchThreshold s) (proximityThreshold s) (enableSound s)
    (isRunning s) (touchStartTime s) v (alertActive s) (lastHandResults s)
    (lastFaceResults s) (audioContext s) (alarmOscillator s) (alarmGain s)
    (alarmInterval s) (dom s) (host s).

Definition set_alertActive (v : bool) (s : HandsOff) : HandsOff :=
  mkHandsOff (touchThreshold s) (proximityThreshold s) (enableSound s)
    (isRunning s) (touchStartTime s) (isTouching s) v (lastHandResults s)
    (lastFaceResults s) (audioContext s) (alarmOscillator s) (alarmGain s)
    (alarmInterval s) (dom s) (host s).

Definition set_lastHandResults (v : option HandResults) (s : HandsOff) : HandsOff :=
  mkHandsOff (touchThreshold s) (proximityThreshold s) (enableSound s)
    (isRunning s) (touchStartTime s) (isTouching s) (alertActive s) v
    (lastFaceResults s) (audioContext s) (alarmOscillator s) (alarmGain s)
    (alarmInterval s) (dom s) (host s).

Definition set_lastFaceResults (v : option FaceResults) (s : HandsOff) : HandsOff :=
  mkHandsOff (touchThreshold s) (proximityThreshold s) (enableSound s)
    (isRunning s) (touchStartTime s) (isTouching s) (alertActive s)
    (lastHandResults s) v (audioContext s) (alarmOscillator s) (alarmGain s)
    (alarmInterval s) (dom s) (host s).

Definition set_audioContext (v : option AudioContext) (s : HandsOff) : HandsOff :=
  mkHandsOff (touchThreshold s) (proximityThreshold s) (enableSound s)
    (isRunning s) (touchStartTime s) (isTouching s) (alertActive s)
    (lastHandResults s) (lastFaceResults s) v (alarmOscillator s) (alarmGain
    s) (alarmInterval s) (dom s) (host s).

Definition set_alarmOscillator (v : option positive) (s : HandsOff) : HandsOff :=
  mkHandsOff (touchThreshold s) (proximityThreshold s) (enableSound s)
    (isRunning s) (touchStartTime s) (isTouching s) (alertActive s)
    (lastHandResults s) (lastFaceResults s) (audioContext s) v (alarmGain s)
    (alarmInterval s) (dom s) (host s).

Definition set_alarmGain (v : option positive) (s : HandsOff) : HandsOff :=
  mkHandsOff (touchThreshold s) (proximityThreshold s) (enableSound s)
    (isRunning s) (touchStartTime s) (isTouching s) (alertActive s)
    (lastHandResults s) (lastFaceResults s) (audioContext s)
    (alarmOscillator s) v (alarmInterval s) (dom s) (host s).

Definition set_alarmInterval (v : option positive) (s : HandsOff) : HandsOff :=
  mkHandsOff (touchThreshold s) (proximityThreshold s) (enableSound s)
    (isRunning s) (touchStartTime s) (isTouching s) (alertActive s)
    (lastHandResults s) (lastFaceResults s) (audioContext s)
    (alarmOscillator s) (alarmGain s) v (dom s) (host s).

Definition set_dom (v : Dom) (s : HandsOff) : HandsOff :=
  mkHandsOff (touchThreshold s) (proximityThreshold s) (enableSound s)
    (isRunning s) (touchStartTime s) (isTouching s) (alertActive s)
    (lastHandResults s) (lastFaceResults s) (audioContext s)
    (alarmOscillator s) (alarmGain s) (alarmInterval s) v (host s).

Definition set_host (v : Host) (s : HandsOff) : HandsOff :=
  mkHandsOff (touchThreshold s) (proximityThreshold s) (enableSound s)
    (isRunning s) (touchStartTime s) (isTouching s) (alertActive s)
    (lastHandResults s) (lastFaceResults s) (audioContext s)
    (alarmOscillator s) (alarmGain s) (alarmInterval s) (dom s) v.


(** ** Computations on [this] *)

Definition M (A : Type) : Type := HandsOff -> Completion A * HandsOff.

Definition ret {A : Type} (a : A) : M A := fun s => (Normal a, s).

Definition bind {A B : Type} (m : M A) (k : A -> M B) : M B :=
  fun s =>
    match m s with
    | (Normal a, s') => k a s'
    | (TypeError, s') => (TypeError, s')
    end.

Definition throw {A : Type} : M A := fun s => (TypeError, s).

Definition read {A : Type} (field : HandsOff -> A) : M A :=
  fun s => (Normal (field s), s).

Definition assign (f : HandsOff -> HandsOff) : M unit :=
  fun s => (Normal tt, f s).

Notation "v <- m ;; k" := (bind m (fun v => k))
  (at level 61, m at next level, right associativity).
Notation "m ;; k" := (bind m (fun _ => k))
  (at level 61, right associativity).

(** Reading a property of a value that may be [undefined] or [null]. *)
Definition member {A : Type} (v : option A) : M A :=
  match v with
  | Some a => ret a
  | None => throw
  end.

Definition truthy {A : Type} (v : option A) : bool :=
  match v with
  | Some _ => true
  | None => false
  end.

(** [for (const a of l) body], with the local variable the body updates. *)
Fixpoint for_of {A V : Type} (l : list A) (body : A -> V -> M V) (v : V)
  : M V :=
  match l with
  | [] => ret v
  | a :: l' => v' <- body a v ;; for_of l' body v'
  end.

(** The state the handler of an event leaves, however the handler ends. *)
Definition after {A : Type} (m : M A) (s : HandsOff) : HandsOff := snd (m s).

Definition completion {A : Type} (m : M A) (s : HandsOff) : Completion A :=
  fst (m s).

(** ** Primitive effects on the page and the browser *)

Definition on_dom (f : Dom -> Dom) : M unit :=
  assign (fun s => set_dom (f (dom s)) s).

Definition on_host (f : Host -> Host) : M unit :=
  assign (fun s => set_host (f (host s)) s).

Definition ctx_call (c : CtxCall) : M unit :=
  on_dom (fun d => set_ctx (ctx d ++ [c]) d).

Definition console_log (line : string) : M unit :=
  on_host (fun h => set_console (console h ++ [line]) h).

Definition enter (c : Call) : M unit :=
  on_host (fun h => set_calls (calls h ++ [c]) h).

Definition fresh : M positive :=
  id <- read (fun s => next_id (host s)) ;;
  on_host (set_next_id (Pos.succ id)) ;;
  ret id.

Definition without (id : positive) (l : list positive) : list positive :=
  filter (fun i => negb (Pos.eqb i id)) l.

Definition without_timer (id : positive) (l : list (positive * nat))
  : list (positive * nat) :=
  filter (fun t => negb (Pos.eqb (fst t) id)) l.

Definition setInterval (freqIndex : nat) : M positive :=
  id <- fresh ;;
  on_host (fun h => set_intervals (intervals h ++ [(id, freqIndex)]) h) ;;
  ret id.

Definition clearInterval (id : positive) : M unit :=
  on_host (fun h => set_intervals (without_timer id (intervals h)) h).

(** [this.audioContext.createGain()], [createOscillator()]: a TypeError when
    [audioContext] is [null]. *)
Definition createNode : M positive :=
  ac <- read audioContext ;;
  _ <- member ac ;;
  fresh.

Definition connect_destination (node : positive) : M unit :=
  on_host (fun h => set_destination (destination h ++ [node]) h).

Definition disconnect (node : positive) : M unit :=
  on_host (fun h => set_destination (without node (destination h)) h).

Definition oscillator_start (frequency : num) : M unit :=
  on_host (fun h => set_beeps (beeps h ++ [frequency]) h).

(** ** The methods of [HandsOff] *)

Definition updateStatus (text : string) (touching : bool) : M unit :=
  on_dom (set_statusText text) ;;
  if touching then on_dom (set_statusDot true)
  else on_dom (set_statusDot false).

Definition frequencies : list num := [of_int 1200; of_int 800].

(** The closure [playBeep] of [startAlarm]; it returns the value it leaves
    in the closure's variable [freqIndex].  Of a beep the model keeps the
    frequency; its envelope and its length of 0.3 s are not represented. *)
Definition playBeep (freqIndex : nat) : M nat :=
  sound <- read enableSound ;;
  active <- read alertActive ;;
  if negb sound || negb active then ret freqIndex
  else
    _ <- createNode ;;                       (* oscillator *)
    _ <- createNode ;;                       (* gain *)
    master <- read alarmGain ;;
    _ <- member master ;;                    (* gain.connect(this.alarmGain) *)
    oscillator_start (nth freqIndex frequencies (of_int 0)) ;;
    ret ((freqIndex + 1) mod List.length frequencies)%nat.

Definition startAlarm : M unit :=
  enter call_startAlarm ;;
  sound <- read enableSound ;;
  oscillator <- read alarmOscillator ;;
  if negb sound || truthy oscillator then ret tt
  else
    gain <- createNode ;;
    assign (set_alarmGain (Some gain)) ;;
    connect_destination gain ;;              (* gain.value = 0.3 *)
    freqIndex <- playBeep 0 ;;
    id <- setInterval freqIndex ;;
    assign (set_alarmInterval (Some id)).

Definition stopAlarm : M unit :=
  enter call_stopAlarm ;;
  interval <- read alarmInterval ;;
  match interval with
  | Some id => clearInterval id ;; assign (set_alarmInterval None)
  | None => ret tt
  end ;;
  gain <- read alarmGain ;;
  match gain with
  | Some node => disconnect node ;; assign (set_alarmGain None)
  | None => ret tt
  end ;;
  assign (set_alarmOscillator None).

(** [Date.now() / 1000], for the reading [dateNow] of the clock. *)
Definition seconds (dateNow : Z) : num := of_int dateNow / of_int 1000.

Definition updateTouchState (touchingNow : bool) (dateNow : Z) : M unit :=
  enter (call_updateTouchState touchingNow) ;;
  let currentTime := seconds dateNow in
  if touchingNow then
    touching <- read isTouching ;;
    if negb touching then
      (* Just started touching *)
      assign (set_touchStartTime (Some currentTime)) ;;
      assign (set_isTouching true) ;;
      assign (set_alertActive false) ;;
      updateStatus "TOUCHING" true
    else
      (* Still touching - check duration *)
      startTime <- read touchStartTime ;;
      let duration := currentTime - toNumber startTime in
      threshold <- read touchThreshold ;;
      active <- read alertActive ;;
      (if (threshold <=? duration) && negb active then
         assign (set_alertActive true) ;;
         console_log
           ("ALERT: Hands on face for " ++ toFixed1 duration ++ "s")%string ;;
         startAlarm
       else ret tt) ;;
      active <- read alertActive ;;
      if active then
        on_dom (set_alertOverlay true) ;;
        on_dom
          (set_durationText ("Duration: " ++ toFixed1 duration ++ "s")%string)
      else ret tt
  else
    (* Not touching *)
    touching <- read isTouching ;;
    (if touching then
       startTime <- read touchStartTime ;;
       let duration := currentTime - toNumber startTime in
       console_log ("Touch ended after " ++ toFixed1 duration ++ "s")%string ;;
       stopAlarm
     else ret tt) ;;
    assign (set_isTouching false) ;;
    assign (set_touchStartTime None) ;;
    assign (set_alertActive false) ;;
    on_dom (set_alertOverlay false) ;;
    updateStatus "Clear" false.

(** *** Drawing *)

Definition connections : list (nat * nat) :=
  [ (0, 1); (1, 2); (2, 3); (3, 4);            (* Thumb *)
    (0, 5); (5, 6); (6, 7); (7, 8);            (* Index *)
    (0, 9); (9, 10); (10, 11); (11, 12);       (* Middle *)
    (0, 13); (13, 14); (14, 15); (15, 16);     (* Ring *)
    (0, 17); (17, 18); (18, 19); (19, 20);     (* Pinky *)
    (5, 9); (9, 13); (13, 17) ]%nat.           (* Palm *)

Definition canvasWidth : M num := read (fun s => canvas_width (dom s)).
Definition canvasHeight : M num := read (fun s => canvas_height (dom s)).

Definition drawHandLandmarks (landmarks : list Landmark) : M unit :=
  cw <- canvasWidth ;;
  ch <- canvasHeight ;;
  ctx_call (strokeStyle "#FF0000") ;;
  ctx_call (lineWidth (of_int 2)) ;;
  for_of connections
    (fun connection _ =>
       let startPoint := nth_error landmarks (fst connection) in
       let endPoint := nth_error landmarks (snd connection) in
       ctx_call beginPath ;;
       p <- member startPoint ;;
       ctx_call (moveTo (x p * cw) (y p * ch)) ;;
       q <- member endPoint ;;
       ctx_call (lineTo (x q * cw) (y q * ch)) ;;
       ctx_call stroke) tt ;;
  ctx_call (fillStyle "#00FF00") ;;
  for_of landmarks
    (fun landmark _ =>
       ctx_call beginPath ;;
       ctx_call (arc (x landmark * cw) (y landmark * ch) (of_int 3)) ;;
       ctx_call fill) tt.

(** *** The proximity test *)

Record Box := mkBox { xMin : num; xMax : num; yMin : num; yMax : num }.

Definition expandedBox (faceBbox : BoundingBox) (margin : num) : Box :=
  {| xMin := xCenter faceBbox - (width faceBbox / of_int 2) - margin;
     xMax := xCenter faceBbox + (width faceBbox / of_int 2) + margin;
     yMin := yCenter faceBbox - (height faceBbox / of_int 2) - margin;
     yMax := yCenter faceBbox + (height faceBbox / of_int 2) + margin |}.

(** The condition of the [if] in the loop over the key points. *)
Definition inside (landmark : Landmark) (box : Box) : bool :=
  (xMin box <=? x landmark) && (x landmark <=? xMax box) &&
  (yMin box <=? y landmark) && (y landmark <=? yMax box).

(** Check key hand points (wrist + fingertips) *)
Definition keyPoints : list nat := [0; 4; 8; 12; 16; 20]%nat.

(** The loop over the key points: it returns at the first one inside. *)
Fixpoint anyKeyPointInside (handLandmarks : list Landmark) (box : Box)
    (indices : list nat) : M bool :=
  match indices with
  | [] => ret false
  | idx :: rest =>
      landmark <- member (nth_error handLandmarks idx) ;;
      if inside landmark box then ret true
      else anyKeyPointInside handLandmarks box rest
  end.

Definition isHandNearFace (handLandmarks : list Landmark)
    (faceBbox : BoundingBox) : M bool :=
  margin <- read proximityThreshold ;;
  anyKeyPointInside handLandmarks (expandedBox faceBbox margin) keyPoints.

(** *** The evaluation of a frame *)

(** The body of the loop over the detections of the cached face result. *)
Definition forDetection (detection : Detection) (touchingNow : bool)
  : M bool :=
  let bbox := boundingBox detection in
  cw <- canvasWidth ;;
  ch <- canvasHeight ;;
  (* Draw face bounding box *)
  ctx_call (strokeStyle "#00FF00") ;;
  ctx_call (lineWidth (of_int 2)) ;;
  ctx_call
    (strokeRect (xCenter bbox * cw - (width bbox * cw) / of_int 2)
                (yCenter bbox * ch - (height bbox * ch) / of_int 2)
                (width bbox * cw) (height bbox * ch)) ;;
  (* Check if hands are near face *)
  hands <- read lastHandResults ;;
  match hands with
  | Some {| multiHandLandmarks := Some multi |} =>
      for_of multi
        (fun landmarks touchingNow =>
           drawHandLandmarks landmarks ;;
           near <- isHandNearFace landmarks bbox ;;
           if near then ret true else ret touchingNow)
        touchingNow
  | _ => ret touchingNow
  end.

(** Lines 159 to 189 of [processFrame]: the value of the local variable
    [touchingNow] when [updateTouchState] is called. *)
Definition touchingNowOfFrame : M bool :=
  let touchingNow := false in
  faces <- read lastFaceResults ;;
  match faces with
  | Some {| detections := Some ds |} => for_of ds forDetection touchingNow
  | _ => ret touchingNow
  end.

Definition processFrame (dateNow : Z) : M unit :=
  running <- read isRunning ;;
  if negb running then ret tt
  else
    cw <- canvasWidth ;;
    ch <- canvasHeight ;;
    ctx_call (clearRect (of_int 0) (of_int 0) cw ch) ;;
    touchingNow <- touchingNowOfFrame ;;
    updateTouchState touchingNow dateNow.

(** *** Start and stop *)

(** How [start()] goes: the audio context cannot be created; or the
    camera or the video fails after it has been; or a detector fails after
    the canvas has been given the size of the video; or everything is
    obtained. *)
Inductive StartOutcome :=
| AudioFails
| CameraFails
| DetectorFails (videoWidth videoHeight : num)
| Starts (videoWidth videoHeight : num).

(** [start()], run to its end.  On a failure the [catch] clause reports
    the error and writes nothing more. *)
Definition start (outcome : StartOutcome) : M unit :=
  match outcome with
  | AudioFails => ret tt
  | CameraFails => assign (set_audioContext (Some TheAudioContext))
  | DetectorFails videoWidth videoHeight =>
      assign (set_audioContext (Some TheAudioContext)) ;;
      on_dom (set_canvas_width videoWidth) ;;
      on_dom (set_canvas_height videoHeight)
  | Starts videoWidth videoHeight =>
      assign (set_audioContext (Some TheAudioContext)) ;;
      on_dom (set_canvas_width videoWidth) ;;
      on_dom (set_canvas_height videoHeight) ;;
      assign (set_isRunning true) ;;
      updateStatus "Clear" false
  end.

Definition stop : M unit :=
  assign (set_isRunning false) ;;
  stopAlarm ;;
  cw <- canvasWidth ;;
  ch <- canvasHeight ;;
  ctx_call (clearRect (of_int 0) (of_int 0) cw ch) ;;
  assign (set_isTouching false) ;;
  assign (set_touchStartTime None) ;;
  assign (set_alertActive false) ;;
  on_dom (set_alertOverlay false) ;;
  updateStatus "Camera Off" false.

(** ** Events: the callbacks registered by the constructor and by
    [initMediaPipe] *)

Definition hands_onResults (results : HandResults) (dateNow : Z) : M unit :=
  assign (set_lastHandResults (Some results)) ;;
  processFrame dateNow.

Definition faceDetection_onResults (results : FaceResults) : M unit :=
  assign (set_lastFaceResults (Some results)).

Definition soundToggle_change (checked : bool) : M unit :=
  assign (set_enableSound checked) ;;
  sound <- read enableSound ;;
  if negb sound then stopAlarm else ret tt.

Definition thresholdSlider_input (value : num) : M unit :=
  assign (set_touchThreshold value).

(** The three positions of the sensitivity slider. *)
Inductive Sensitivity := Low | Medium | High.

Definition slider_value (level : Sensitivity) : nat :=
  match level with
  | Low => 1
  | Medium => 2
  | High => 3
  end.

(** The literals [0.12], [0.08] and [0.05]. *)
Definition thresholds : list num := [decimal 12 2; decimal 8 2; decimal 5 2].

Definition sensitivitySlider_input (level : Sensitivity) : M unit :=
  let value := slider_value level in
  assign (set_proximityThreshold (nth (value - 1)%nat thresholds (of_int 0))).

(** The browser runs the closure of an active timer. *)
Definition interval_fires (id : positive) : M unit :=
  timers <- read (fun s => intervals (host s)) ;;
  match find (fun t => Pos.eqb (fst t) id) timers with
  | Some (_, freqIndex) =>
      freqIndex' <- playBeep freqIndex ;;
      on_host
        (fun h =>
           set_intervals
             (map (fun t => if Pos.eqb (fst t) id then (id, freqIndex') else t)
                  (intervals h)) h)
  | None => ret tt
  end.

Inductive Event :=
| StartClick (outcome : StartOutcome)
| StopClick
| SoundToggle (checked : bool)
| ThresholdInput (value : num)
| SensitivityInput (level : Sensitivity)
| HandResultsArrive (results : HandResults) (dateNow : Z)
| FaceResultsArrive (results : FaceResults)
| IntervalFires (id : positive).

Definition handler (e : Event) : M unit :=
  match e with
  | StartClick outcome => start outcome
  | StopClick => stop
  | SoundToggle checked => soundToggle_change checked
  | ThresholdInput value => thresholdSlider_input value
  | SensitivityInput level => sensitivitySlider_input level
  | HandResultsArrive results dateNow => hands_onResults results dateNow
  | FaceResultsArrive results => faceDetection_onResults results
  | IntervalFires id => interval_fires id
  end.

(** An exception that escapes a callback is reported by the browser; the
    object keeps the state the callback reached. *)
Definition step (s : HandsOff) (e : Event) : HandsOff := after (handler e) s.

Definition run (events : list Event) (s : HandsOff) : HandsOff :=
  fold_left step events s.

(** The object the constructor builds, on a page [page]. *)
Definition new_HandsOff (page : Dom) : HandsOff :=
  {| touchThreshold := of_int 1;
     proximityThreshold := decimal 8 2;
     enableSound := true;
     isRunning := false;
     touchStartTime := None;
     isTouching := false;
     alertActive := false;
     lastHandResults := None;
     lastFaceResults := None;
     audioContext := None;
     alarmOscillator := None;
     alarmGain := None;
     alarmInterval := None;
     dom := page;
     host := mkHost [] [] 1%positive [] [] [] |}.

Inductive reachable : HandsOff -> Prop :=
| reachable_new (page : Dom) : reachable (new_HandsOff page)
| reachable_step (s : HandsOff) (e : Event) :
    reachable s -> reachable (step s e).

(** * Specification vocabulary *)

(** The state [s] after further calls [cmds] on the canvas context. *)
Definition draws (cmds : list CtxCall) (s : HandsOff) : HandsOff :=
  set_dom (set_ctx (ctx (dom s) ++ cmds) (dom s)) s.

(** The detections and the hands an evaluation iterates over. *)
Definition faces_of (s : HandsOff) : list Detection :=
  match lastFaceResults s with
  | Some {| detections := Some ds |} => ds
  | _ => []
  end.

Definition hands_of (s : HandsOff) : list (list Landmark) :=
  match lastHandResults s with
  | Some {| multiHandLandmarks := Some multi |} => multi
  | _ => []
  end.

Definition well_formed_hand (landmarks : list Landmark) : Prop :=
  List.length landmarks = 21%nat.

Definition origin : Landmark := mkLandmark (of_int 0) (of_int 0).

(** Some key point of the hand is inside the face box expanded by
    [margin]. *)
Definition keyPointNear (margin : num) (faceBbox : BoundingBox)
    (landmarks : list Landmark) : bool :=
  existsb (fun idx => inside (nth idx landmarks origin)
                             (expandedBox faceBbox margin)) keyPoints.

(** How often [startAlarm] and [updateTouchState] have been entered. *)
Definition is_startAlarm (c : Call) : bool :=
  match c with
  | call_startAlarm => true
  | _ => false
  end.

Definition is_evaluation (c : Call) : bool :=
  match c with
  | call_updateTouchState _ => true
  | _ => false
  end.

Definition alarm_starts (s : HandsOff) : nat :=
  List.length (filter is_startAlarm (calls (host s))).

Definition evaluations (s : HandsOff) : nat :=
  List.length (filter is_evaluation (calls (host s))).

(** Two states that hold the same cached face result, the same cached
    hand result and the same proximity margin. *)
Definition same_inputs (s1 s2 : HandsOff) : Prop :=
  lastFaceResults s1 = lastFaceResults s2 /\
  lastHandResults s1 = lastHandResults s2 /\
  num_eq (proximityThreshold s1) (proximityThreshold s2).

(** Two computations that, from states with the same inputs, end the same
    way and write nothing but the canvas. *)
Definition sim {A : Type} (m1 m2 : M A) : Prop :=
  forall s1 s2, same_inputs s1 s2 ->
    exists r c1 c2, m1 s1 = (r, draws c1 s1) /\ m2 s2 = (r, draws c2 s2).

Definition option_list {A : Type} (v : option A) : list A :=
  match v with
  | Some a => [a]
  | None => []
  end.

(** What holds of the object between two events. *)
Record Inv (s : HandsOff) : Prop := mkInv {
  inv_oscillator : alarmOscillator s = None;
  inv_audio : isRunning s = true -> audioContext s <> None;
  inv_running : isTouching s = true -> isRunning s = true;
  inv_armed : alertActive s = true -> isTouching s = true;
  inv_session : isTouching s = true <-> touchStartTime s <> None;
  inv_silent : alertActive s = false ->
               alarmInterval s = None /\ alarmGain s = None;
  inv_timers : map fst (intervals (host s)) = option_list (alarmInterval s);
  inv_nodes : destination (host s) = option_list (alarmGain s)
}.

(** A run of evaluations with [touchingNow = true] at the given clock
    readings. *)
Definition touching_run (times : list Z) (s : HandsOff) : HandsOff :=
  fold_left (fun s t => after (updateTouchState true t) s) times s.

Definition elapsed (t0 t : Z) : num := seconds t - seconds t0.

(** The claim that only the first detected face is tested, as a function
    of the cached results. *)
Definition touching_first_face_only (s : HandsOff) : bool :=
  match faces_of s with
  | [] => false
  | first :: _ =>
      existsb (keyPointNear (proximityThreshold s) (boundingBox first))
              (hands_of s)
  end.

(** The face result an evaluation finds in the cache after [events]. *)
Definition latest_face (events : list Event) (cached : option FaceResults)
  : option FaceResults :=
  fold_left
    (fun cached e =>
       match e with
       | FaceResultsArrive results => Some results
       | _ => cached
       end) events cached.

(** The hands of a hand result. *)
Definition landmarks_of (results : HandResults) : list (list Landmark) :=
  match multiHandLandmarks results with
  | Some multi => multi
  | None => []
  end.

(** A hand on which [drawHandLandmarks] finds every landmark that its
    connections name: indices 0 to 20. *)
Definition long_enough (landmarks : list Landmark) : bool :=
  (21 <=? List.length landmarks)%nat.

(** The frame can be processed to its end: there is no detection to loop
    over, or every hand can be drawn. *)
Definition drawable (faces : list Detection) (hands : list (list Landmark))
  : bool :=
  match faces with
  | [] => true
  | _ :: _ => forallb long_enough hands
  end.

(** Some hand has a key point inside the expanded box of some face. *)
Definition near_any_face (margin : num) (faces : list Detection)
    (hands : list (list Landmark)) : bool :=
  existsb (fun d => existsb (keyPointNear margin (boundingBox d)) hands) faces.

(** The hands that arrive with an event. *)
Definition arriving_hands (e : Event) : list (list Landmark) :=
  match e with
  | HandResultsArrive results _ => landmarks_of results
  | _ => []
  end.

(** The events that run an evaluation: the arrival of a hand result while
    the system is running, when the frame can be processed to its end. *)
Definition evaluates (s : HandsOff) (e : Event) : bool :=
  match e with
  | HandResultsArrive results _ =>
      isRunning s && drawable (faces_of s) (landmarks_of results)
  | _ => false
  end.

(** The alarm handle: timer and node are held together, only while sound
    is enabled, and the closure's [freqIndex] indexes [frequencies]. *)
Record AlarmInv (s : HandsOff) : Prop := mkAlarmInv {
  ainv_pair : alarmInterval s = None <-> alarmGain s = None;
  ainv_sound : alarmInterval s <> None -> enableSound s = true;
  ainv_index : Forall (fun t => (snd t < 2)%nat) (intervals (host s))
}.

(** The sound toggle is checked. *)
Definition is_unmute (e : Event) : bool :=
  match e with
  | SoundToggle true => true
  | _ => false
  end.

(** The frequencies of [k] beeps in a row, the closure's variable being
    [freqIndex] before the first. *)
Definition alternating (freqIndex k : nat) : list num :=
  map (fun i => nth ((freqIndex + i) mod 2)%nat frequencies (of_int 0))
      (seq 0 k).

(** ** Sample data *)

Definition sample_page : Dom :=
  mkDom "Camera Off" false false "" (of_int 300) (of_int 150) [].

Definition hand_at (px py : num) : list Landmark :=
  repeat (mkLandmark px py) 21.

Definition centre_face : Detection :=
  mkDetection
    (mkBoundingBox (decimal 5 1) (decimal 5 1) (decimal 2 1) (decimal 2 1)).

Definition corner_face : Detection :=
  mkDetection
    (mkBoundingBox (decimal 1 1) (decimal 1 1) (decimal 1 1) (decimal 1 1)).

Definition hand_in_corner : HandResults :=
  mkHandResults (Some [hand_at (decimal 1 1) (decimal 1 1)]).

Definition hand_on_face : HandResults :=
  mkHandResults (Some [hand_at (decimal 5 1) (decimal 5 1)]).

(** Running, one face in the centre cached, no touch yet. *)
Definition sample_watching : HandsOff :=
  run [StartClick (Starts (of_int 640) (of_int 480));
       FaceResultsArrive (mkFaceResults (Some [centre_face]))]
      (new_HandsOff sample_page).

(** A hand on the face since 10.000 s: alerting since 11.000 s, with the
    alarm running. *)
Definition sample_alerting : HandsOff :=
  run [HandResultsArrive hand_on_face 10000;
       HandResultsArrive hand_on_face 11000] sample_watching.

(** Two faces cached; the only hand is at the second one. *)
Definition sample_two_faces : HandsOff :=
  run [StartClick (Starts (of_int 640) (of_int 480));
       FaceResultsArrive (mkFaceResults (Some [centre_face; corner_face]));
       HandResultsArrive hand_in_corner 10000]
      (new_HandsOff sample_page).

(** Stopped again, the face result still cached. *)
Definition sample_stopped : HandsOff := step sample_watching StopClick.


(** A hand of five landmarks. *)
Definition short_hand : HandResults :=
  mkHandResults (Some [firstn 5 (hand_at (decimal 5 1) (decimal 5 1))]).

(** The threshold slider moved to 1.1 s. *)
Definition sample_threshold_1_1 : HandsOff :=
  step sample_watching (ThresholdInput (decimal 11 1)).

(** Touching since 10.000 s, not yet alerting. *)
Definition sample_touching : HandsOff :=
  step sample_watching (HandResultsArrive hand_on_face 10000).

(** Alerting, then muted: armed, with the alarm off. *)
Definition sample_muted : HandsOff := step sample_alerting (SoundToggle false).

End Program.

(** The notations of the program, for the statements that follow. *)
Notation "v <- m ;; k" := (bind m (fun v => k))
  (at level 61, m at next level, right associativity).
Notation "m ;; k" := (bind m (fun _ => k))
  (at level 61, right associativity).

(** ** The idealised box, for exact arithmetic *)


(** * Running a method on a state given field by field *)

Ltac destruct_state s :=
  destruct s as [thr margin sound running startT touching active hres fres
                 actx osc gain interval [stxt sdot overlay dtxt cw ch cx]
                 [ivs dest nid bps cons cls]].

Ltac exec :=
  cbv beta iota zeta delta
    [ after completion step handler hands_onResults faceDetection_onResults
      soundToggle_change thresholdSlider_input sensitivitySlider_input
      interval_fires processFrame stop start updateTouchState startAlarm
      stopAlarm playBeep updateStatus setInterval clearInterval createNode
      connect_destination disconnect oscillator_start fresh enter
      console_log ctx_call on_dom on_host canvasWidth canvasHeight assign
      read member throw bind ret truthy fst snd negb orb andb option_list
      draws toNumber
      set_touchThreshold set_proximityThreshold set_enableSound
      set_isRunning set_touchStartTime set_isTouching set_alertActive
      set_lastHandResults set_lastFaceResults set_audioContext
      set_alarmOscillator set_alarmGain set_alarmInterval set_dom set_host
      set_statusText set_statusDot set_alertOverlay set_durationText
      set_canvas_width set_canvas_height set_ctx set_intervals
      set_destination set_next_id set_beeps set_console set_calls
      touchThreshold proximityThreshold enableSound isRunning
      touchStartTime isTouching alertActive lastHandResults lastFaceResults
      audioContext alarmOscillator alarmGain alarmInterval dom host
      statusText statusDot alertOverlay durationText canvas_width
      canvas_height ctx intervals destination next_id beeps console calls ].

Ltac all_cases :=
  repeat match goal with
         | |- context [match ?v with _ => _ end] => is_var v; destruct v; exec
         end.

(** A state given as a run of events from the constructor is reachable. *)
Ltac reachable_run :=
  repeat first [ progress unfold sample_muted
               | progress unfold sample_alerting
               | progress unfold sample_touching
               | progress unfold sample_stopped
               | progress unfold sample_watching ];
  try unfold run; cbn [fold_left];
  repeat apply reachable_step; apply reachable_new.

(** * Facts that hold in every number system *)

Section Theory.

Context {C : Numbers} {N : NumberSystem}.

(** ** Basic facts *)

Lemma draws_nil (s : HandsOff) : draws [] s = s.
Proof.
  destruct s as [? ? ? ? ? ? ? ? ? ? ? ? ? d h]; destruct d.
  unfold draws; cbn. now rewrite app_nil_r.
Qed.

Lemma draws_draws (c1 c2 : list CtxCall) (s : HandsOff) :
  draws c2 (draws c1 s) = draws (c1 ++ c2) s.
Proof. unfold draws; cbn. now rewrite app_assoc. Qed.

Lemma ctx_call_draws (c : CtxCall) (s : HandsOff) :
  ctx_call c s = (Normal tt, draws [c] s).
Proof. reflexivity. Qed.

Lemma bind_Normal {A B : Type} (m : M A) (k : A -> M B) s a s' :
  m s = (Normal a, s') -> bind m k s = k a s'.
Proof. unfold bind; intros ->; reflexivity. Qed.

Lemma bind_TypeError {A B : Type} (m : M A) (k : A -> M B) s s' :
  m s = (TypeError, s') -> bind m k s = (TypeError, s').
Proof. unfold bind; intros ->; reflexivity. Qed.

(** ** The geometry decision depends on its inputs only *)

Lemma same_inputs_draws c1 c2 s1 s2 :
  same_inputs s1 s2 -> same_inputs (draws c1 s1) (draws c2 s2).
Proof. intros H; exact H. Qed.

Lemma sim_ret {A : Type} (a : A) : sim (ret a) (ret a).
Proof.
  intros s1 s2 _. exists (Normal a), [], []. now rewrite !draws_nil.
Qed.

Lemma sim_member {A : Type} (v : option A) : sim (member v) (member v).
Proof.
  intros s1 s2 _. destruct v as [a|]; cbn.
  - exists (Normal a), [], []. now rewrite !draws_nil.
  - exists TypeError, [], []. now rewrite !draws_nil.
Qed.

Lemma sim_ctx_call (c1 c2 : CtxCall) : sim (ctx_call c1) (ctx_call c2).
Proof. intros s1 s2 _. exists (Normal tt), [c1], [c2]. split; reflexivity. Qed.

Lemma sim_bind {A B : Type} (m1 m2 : M A) (k1 k2 : A -> M B) :
  sim m1 m2 -> (forall a, sim (k1 a) (k2 a)) -> sim (bind m1 k1) (bind m2 k2).
Proof.
  intros Hm Hk s1 s2 HR.
  destruct (Hm s1 s2 HR) as (r & c1 & c2 & E1 & E2).
  destruct r as [a|].
  - rewrite (bind_Normal _ _ _ _ _ E1), (bind_Normal _ _ _ _ _ E2).
    destruct (Hk a (draws c1 s1) (draws c2 s2)) as (r & d1 & d2 & F1 & F2).
    { now apply same_inputs_draws. }
    exists r, (c1 ++ d1), (c2 ++ d2). now rewrite F1, F2, !draws_draws.
  - rewrite (bind_TypeError _ _ _ _ E1), (bind_TypeError _ _ _ _ E2).
    now exists TypeError, c1, c2.
Qed.

(** A read whose value only reaches the canvas. *)
Lemma sim_read_any {A B : Type} (field : HandsOff -> A) (k1 k2 : A -> M B) :
  (forall a1 a2, sim (k1 a1) (k2 a2)) ->
  sim (bind (read field) k1) (bind (read field) k2).
Proof. intros Hk s1 s2 HR. exact (Hk (field s1) (field s2) s1 s2 HR). Qed.

Lemma sim_read_margin {B : Type} (k1 k2 : num -> M B) :
  (forall m1 m2, num_eq m1 m2 -> sim (k1 m1) (k2 m2)) ->
  sim (bind (read proximityThreshold) k1) (bind (read proximityThreshold) k2).
Proof.
  intros Hk s1 s2 HR.
  exact (Hk _ _ (proj2 (proj2 HR)) s1 s2 HR).
Qed.

Lemma sim_read_hands {B : Type} (k1 k2 : option HandResults -> M B) :
  (forall h, sim (k1 h) (k2 h)) ->
  sim (bind (read lastHandResults) k1) (bind (read lastHandResults) k2).
Proof.
  intros Hk s1 s2 HR. unfold bind, read.
  rewrite (proj1 (proj2 HR)). exact (Hk _ s1 s2 HR).
Qed.

Lemma sim_read_faces {B : Type} (k1 k2 : option FaceResults -> M B) :
  (forall f, sim (k1 f) (k2 f)) ->
  sim (bind (read lastFaceResults) k1) (bind (read lastFaceResults) k2).
Proof.
  intros Hk s1 s2 HR. unfold bind, read.
  rewrite (proj1 HR). exact (Hk _ s1 s2 HR).
Qed.

Lemma sim_for_of {A V : Type} (l : list A) (b1 b2 : A -> V -> M V) :
  (forall a v, sim (b1 a v) (b2 a v)) ->
  forall v, sim (for_of l b1 v) (for_of l b2 v).
Proof.
  intros Hb. induction l as [|a l IH]; intros v; cbn [for_of].
  - apply sim_ret.
  - apply sim_bind; [apply Hb | exact IH].
Qed.

Ltac sim_step :=
  lazymatch goal with
  | |- sim (ret _) (ret _) => apply sim_ret
  | |- sim (ctx_call _) (ctx_call _) => apply sim_ctx_call
  | |- sim (member _) (member _) => apply sim_member
  | |- sim (bind (read _) _) (bind (read _) _) =>
      apply sim_read_any; intros ? ?
  | |- sim (for_of _ _ _) (for_of _ _ _) => apply sim_for_of; intros ? ?
  | |- sim (bind _ _) (bind _ _) => apply sim_bind; [| intros ?]
  end.

(** Margins that are equal as numbers give the same test. *)
Lemma inside_margin (p : Landmark) (b : BoundingBox) (m1 m2 : num) :
  num_eq m1 m2 -> inside p (expandedBox b m1) = inside p (expandedBox b m2).
Proof.
  intros E. unfold inside, expandedBox; cbn [xMin xMax yMin yMax].
  f_equal; [f_equal; [f_equal|]|]; apply num_leb_eq;
    auto using num_eq_refl, num_sub_eq, num_add_eq.
Qed.

Lemma sim_anyKeyPointInside lm (b : BoundingBox) (m1 m2 : num) indices :
  num_eq m1 m2 ->
  sim (anyKeyPointInside lm (expandedBox b m1) indices)
      (anyKeyPointInside lm (expandedBox b m2) indices).
Proof.
  intros E. induction indices as [|idx rest IH]; cbn [anyKeyPointInside].
  - apply sim_ret.
  - apply sim_bind; [apply sim_member | intros p].
    rewrite (inside_margin p b m1 m2 E).
    destruct (inside p (expandedBox b m2)); [apply sim_ret | exact IH].
Qed.

Lemma sim_isHandNearFace lm b : sim (isHandNearFace lm b) (isHandNearFace lm b).
Proof.
  unfold isHandNearFace. apply sim_read_margin. intros m1 m2 E.
  now apply sim_anyKeyPointInside.
Qed.

Lemma sim_drawHandLandmarks lm :
  sim (drawHandLandmarks lm) (drawHandLandmarks lm).
Proof.
  unfold drawHandLandmarks, canvasWidth, canvasHeight.
  repeat sim_step.
Qed.

Lemma sim_forDetection d v : sim (forDetection d v) (forDetection d v).
Proof.
  unfold forDetection, canvasWidth, canvasHeight.
  do 2 sim_step. do 3 (sim_step; [sim_step |]).
  apply sim_read_hands. intros [[[multi|]]|]; try apply sim_ret.
  apply sim_for_of. intros lm t.
  apply sim_bind; [apply sim_drawHandLandmarks | intros _].
  apply sim_bind; [apply sim_isHandNearFace | intros near].
  destruct near; apply sim_ret.
Qed.

Lemma sim_touchingNowOfFrame : sim touchingNowOfFrame touchingNowOfFrame.
Proof.
  unfold touchingNowOfFrame.
  apply sim_read_faces. intros [[[ds|]]|]; try apply sim_ret.
  apply sim_for_of. intros d v. apply sim_forDetection.
Qed.

Lemma same_inputs_refl (s : HandsOff) : same_inputs s s.
Proof. repeat split; apply num_eq_refl. Qed.

Lemma drawHandLandmarks_draws (lm : list Landmark) (s : HandsOff) :
  exists r cmds, drawHandLandmarks lm s = (r, draws cmds s).
Proof.
  destruct (sim_drawHandLandmarks lm s s (same_inputs_refl s))
    as (r & c & _ & E & _).
  now exists r, c.
Qed.

Lemma touchingNowOfFrame_draws (s : HandsOff) :
  exists r cmds, touchingNowOfFrame s = (r, draws cmds s).
Proof.
  destruct (sim_touchingNowOfFrame s s (same_inputs_refl s))
    as (r & c & _ & E & _).
  now exists r, c.
Qed.

(** ** The value of [touchingNow] *)

Lemma anyKeyPointInside_value lm box indices s :
  Forall (fun idx => (idx < List.length lm)%nat) indices ->
  anyKeyPointInside lm box indices s =
  (Normal (existsb (fun idx => inside (nth idx lm origin) box) indices), s).
Proof.
  induction 1 as [|idx rest Hidx _ IH]; cbn [anyKeyPointInside existsb].
  - reflexivity.
  - rewrite (nth_error_nth' lm origin Hidx).
    unfold bind at 1; cbn [member ret].
    destruct (inside (nth idx lm origin) box); [reflexivity | exact IH].
Qed.

Lemma long_enough_length lm :
  long_enough lm = true <-> (21 <= List.length lm)%nat.
Proof. unfold long_enough. apply Nat.leb_le. Qed.

Lemma well_formed_long_enough lm : well_formed_hand lm -> long_enough lm = true.
Proof. unfold well_formed_hand, long_enough. now intros ->. Qed.

Lemma well_formed_hands_long_enough multi :
  Forall well_formed_hand multi -> forallb long_enough multi = true.
Proof.
  intros H. apply forallb_forall. intros lm Hin.
  apply well_formed_long_enough.
  exact (proj1 (Forall_forall _ _) H lm Hin).
Qed.

Lemma keyPoints_in_range lm :
  long_enough lm = true ->
  Forall (fun idx => (idx < List.length lm)%nat) keyPoints.
Proof.
  intros W. apply long_enough_length in W. unfold keyPoints.
  repeat first [apply Forall_nil | apply Forall_cons]; lia.
Qed.

Lemma isHandNearFace_value lm b s :
  long_enough lm = true ->
  isHandNearFace lm b s = (Normal (keyPointNear (proximityThreshold s) b lm), s).
Proof.
  intros W. unfold isHandNearFace, keyPointNear, bind, read.
  now apply anyKeyPointInside_value, keyPoints_in_range.
Qed.

(** A loop whose body always completes normally and only draws. *)
Lemma for_of_draws {A V : Type} (l : list A) (body : A -> V -> M V) :
  (forall a v s, In a l ->
     exists v' cmds, body a v s = (Normal v', draws cmds s)) ->
  forall v s, exists v' cmds, for_of l body v s = (Normal v', draws cmds s).
Proof.
  induction l as [|a l IH]; intros Hb v s; cbn [for_of].
  - exists v, []. now rewrite draws_nil.
  - destruct (Hb a v s (or_introl eq_refl)) as (v1 & c1 & E1).
    rewrite (bind_Normal _ _ _ _ _ E1).
    destruct (IH (fun a' v' s' H => Hb a' v' s' (or_intror H)) v1 (draws c1 s))
      as (v2 & c2 & E2).
    exists v2, (c1 ++ c2). now rewrite E2, draws_draws.
Qed.

Lemma connections_in_range :
  Forall (fun c => (fst c < 21)%nat /\ (snd c < 21)%nat) connections.
Proof.
  unfold connections.
  repeat first [apply Forall_nil | apply Forall_cons]; cbn; lia.
Qed.

(** With at least 21 landmarks every connection finds its two ends. *)
Lemma drawHandLandmarks_long lm s :
  long_enough lm = true ->
  exists cmds, drawHandLandmarks lm s = (Normal tt, draws cmds s).
Proof.
  intros W. apply long_enough_length in W.
  unfold drawHandLandmarks, canvasWidth, canvasHeight.
  unfold bind at 1 2; cbn [read].
  rewrite (bind_Normal _ _ _ _ _ (ctx_call_draws _ _)).
  rewrite (bind_Normal _ _ _ _ _ (ctx_call_draws _ _)).
  rewrite !draws_draws.
  match goal with
  | |- context [bind (for_of connections ?body tt) _ (draws ?c s)] =>
      destruct (for_of_draws connections body) with (v := tt) (s := draws c s)
        as ([] & c1 & E1)
  end.
  { intros [i j] [] s' Hin; cbn [fst snd].
    pose proof (proj1 (Forall_forall _ _) connections_in_range _ Hin) as [Hi Hj].
    cbn [fst snd] in Hi, Hj.
    assert (Hi' : (i < List.length lm)%nat) by lia.
    assert (Hj' : (j < List.length lm)%nat) by lia.
    rewrite (nth_error_nth' lm origin Hi'), (nth_error_nth' lm origin Hj').
    exists tt. eexists. cbn [member].
    unfold bind, ctx_call, on_dom, assign, ret; cbn.
    unfold draws; cbn. rewrite <- !app_assoc. reflexivity. }
  rewrite (bind_Normal _ _ _ _ _ E1), draws_draws.
  rewrite (bind_Normal _ _ _ _ _ (ctx_call_draws _ _)), draws_draws.
  match goal with
  | |- context [for_of lm ?body tt (draws ?c s)] =>
      destruct (for_of_draws lm body) with (v := tt) (s := draws c s)
        as ([] & c2 & E2)
  end.
  { intros p [] s' _. exists tt. eexists.
    unfold bind, ctx_call, on_dom, assign, ret; cbn.
    unfold draws; cbn. rewrite <- !app_assoc. reflexivity. }
  rewrite E2, draws_draws. eexists; reflexivity.
Qed.

(** With fewer, some connection reads a property of [undefined]. *)
Lemma drawHandLandmarks_short lm s :
  long_enough lm = false ->
  exists cmds, drawHandLandmarks lm s = (TypeError, draws cmds s).
Proof.
  intros W. destruct (drawHandLandmarks_draws lm s) as (r & cmds & E).
  exists cmds. rewrite E. f_equal.
  change r with (fst (r, draws cmds s)). rewrite <- E. clear E.
  do 21 (destruct lm as [|? lm]; [reflexivity|]).
  discriminate W.
Qed.

(** The loop over the hands, for one face box. *)
Lemma hands_loop_value (b : BoundingBox) (multi : list (list Landmark)) :
  forall touchingNow s, exists cmds,
    for_of multi
      (fun landmarks touchingNow =>
         drawHandLandmarks landmarks ;;
         near <- isHandNearFace landmarks b ;;
         if near then ret true else ret touchingNow)
      touchingNow s =
    ((if forallb long_enough multi
      then Normal (touchingNow ||
                   existsb (keyPointNear (proximityThreshold s) b) multi)
      else TypeError),
     draws cmds s).
Proof.
  induction multi as [|lm multi IH]; intros t s; cbn [for_of existsb forallb].
  - exists []. now rewrite draws_nil, orb_false_r.
  - destruct (long_enough lm) eqn:W; cbn [andb].
    + destruct (drawHandLandmarks_long lm s W) as (c1 & E1).
      unfold bind at 1. unfold bind at 1. rewrite E1.
      unfold bind at 1. rewrite (isHandNearFace_value lm b _ W).
      change (proximityThreshold (draws c1 s)) with (proximityThreshold s).
      destruct (IH (if keyPointNear (proximityThreshold s) b lm then true else t)
                   (draws c1 s)) as (c2 & E2).
      exists (c1 ++ c2). rewrite <- draws_draws.
      destruct (keyPointNear (proximityThreshold s) b lm); cbn [ret];
        rewrite E2; change (proximityThreshold (draws c1 s))
                      with (proximityThreshold s);
        now rewrite ?orb_true_r, ?orb_false_l, ?orb_true_l.
    + destruct (drawHandLandmarks_short lm s W) as (c1 & E1).
      exists c1. unfold bind at 1. unfold bind at 1. now rewrite E1.
Qed.

Lemma forDetection_value (d : Detection) (touchingNow : bool) s :
  exists cmds,
    forDetection d touchingNow s =
    ((if forallb long_enough (hands_of s)
      then Normal (touchingNow ||
                   existsb (keyPointNear (proximityThreshold s) (boundingBox d))
                           (hands_of s))
      else TypeError),
     draws cmds s).
Proof.
  unfold forDetection, canvasWidth, canvasHeight.
  unfold bind at 1 2; cbn [read].
  do 3 rewrite (bind_Normal _ _ _ _ _ (ctx_call_draws _ _)).
  rewrite !draws_draws. unfold bind at 1; cbn [read].
  change (lastHandResults (draws ?c s)) with (lastHandResults s).
  unfold hands_of in *.
  destruct (lastHandResults s) as [[[multi|]]|]; cbn [existsb forallb].
  - match goal with
    | |- context [draws ?c s] =>
        destruct (hands_loop_value (boundingBox d) multi touchingNow
                                   (draws c s)) as (c2 & E2)
    end.
    rewrite E2, draws_draws. eexists; reflexivity.
  - rewrite orb_false_r. eexists; reflexivity.
  - rewrite orb_false_r. eexists; reflexivity.
Qed.

Lemma faces_loop_value (ds : list Detection) :
  forall touchingNow s,
    exists cmds,
      for_of ds forDetection touchingNow s =
      ((if drawable ds (hands_of s)
        then Normal (touchingNow ||
                     near_any_face (proximityThreshold s) ds (hands_of s))
        else TypeError),
       draws cmds s).
Proof.
  unfold near_any_face.
  induction ds as [|d ds IH]; intros t s; cbn [for_of existsb drawable].
  - exists []. now rewrite draws_nil, orb_false_r.
  - destruct (forDetection_value d t s) as (c1 & E1).
    destruct (forallb long_enough (hands_of s)) eqn:W.
    + rewrite (bind_Normal _ _ _ _ _ E1).
      destruct (IH (t || existsb (keyPointNear (proximityThreshold s)
                                               (boundingBox d)) (hands_of s))
                   (draws c1 s)) as (c2 & E2).
      exists (c1 ++ c2). rewrite E2, draws_draws.
      change (proximityThreshold (draws c1 s)) with (proximityThreshold s).
      change (hands_of (draws c1 s)) with (hands_of s).
      destruct ds as [|d' ds']; cbn [drawable]; rewrite ?W;
        now rewrite orb_assoc.
    + exists c1. now rewrite (bind_TypeError _ _ _ _ E1).
Qed.

(** The block of [processFrame] that computes [touchingNow]: it ends with
    the boolean "some hand is near some face", or, when a detection is
    cached and some hand is too short to be drawn, with a TypeError; and it
    writes nothing but the canvas. *)
Lemma touchingNowOfFrame_value (s : HandsOff) :
  exists cmds,
    touchingNowOfFrame s =
    ((if drawable (faces_of s) (hands_of s)
      then Normal (near_any_face (proximityThreshold s) (faces_of s)
                                 (hands_of s))
      else TypeError),
     draws cmds s).
Proof.
  unfold touchingNowOfFrame, faces_of.
  unfold bind at 1; cbn [read].
  destruct (lastFaceResults s) as [[[ds|]]|]; cbn [existsb drawable].
  - destruct (faces_loop_value ds false s) as (c & E).
    exists c. now rewrite E.
  - exists []. now rewrite draws_nil.
  - exists []. now rewrite draws_nil.
Qed.

Lemma near_any_face_true_iff margin faces hands :
  drawable faces hands = true ->
  near_any_face margin faces hands = true <->
  exists d landmarks idx p,
    In d faces /\ In landmarks hands /\ In idx keyPoints /\
    nth_error landmarks idx = Some p /\
    inside p (expandedBox (boundingBox d) margin) = true.
Proof.
  intros WF. unfold near_any_face. rewrite existsb_exists. split.
  - intros (d & Hd & H). apply existsb_exists in H as (lm & Hlm & H).
    unfold keyPointNear in H. apply existsb_exists in H as (idx & Hidx & H).
    assert (W : long_enough lm = true).
    { destruct faces; [destruct Hd|]. cbn [drawable] in WF.
      exact (proj1 (forallb_forall _ _) WF lm Hlm). }
    pose proof (proj1 (Forall_forall _ _) (keyPoints_in_range lm W) idx Hidx)
      as Hlt.
    exists d, lm, idx, (nth idx lm origin).
    repeat split; auto. now apply nth_error_nth'.
  - intros (d & lm & idx & p & Hd & Hlm & Hidx & E & H).
    exists d. split; [exact Hd|]. apply existsb_exists.
    exists lm. split; [exact Hlm|]. apply existsb_exists.
    exists idx. split; [exact Hidx|]. now rewrite (nth_error_nth _ _ origin E).
Qed.

Lemma map_fst_single (i : positive) (ivs : list (positive * nat)) :
  map fst ivs = [i] -> exists f, ivs = [(i, f)].
Proof.
  destruct ivs as [|[j f] [|]]; cbn; try discriminate.
  intros [= ->]. now exists f.
Qed.

(** The alarm's timer and node are the only ones the browser holds. *)
Ltac normalize_alarm Htimers Hnodes :=
  match type of Htimers with
  | map fst ?ivs = option_list ?interval =>
      destruct interval;
      [ apply map_fst_single in Htimers as [? ->]
      | apply map_eq_nil in Htimers as -> ]
  end;
  match type of Hnodes with
  | ?dest = option_list ?gain => subst dest; destruct gain
  end.

Ltac close_inv :=
  constructor; exec; try tauto; try congruence;
  try (intros; split; congruence);
  try (split; intros; congruence);
  unfold without_timer, without; cbn;
  rewrite ?Pos.eqb_refl; try reflexivity.

(** ** The invariant of the reachable states *)

Lemma Inv_new (page : Dom) : Inv (new_HandsOff page).
Proof. constructor; cbn; try congruence; try tauto. split; congruence. Qed.

Lemma Inv_draws (cmds : list CtxCall) (s : HandsOff) :
  Inv s -> Inv (draws cmds s).
Proof. intros []; constructor; assumption. Qed.

Lemma Inv_set_lastHandResults v (s : HandsOff) :
  Inv s -> Inv (set_lastHandResults v s).
Proof. intros []; constructor; assumption. Qed.

Lemma Inv_updateTouchState (touchingNow : bool) (dateNow : Z) (s : HandsOff) :
  Inv s -> isRunning s = true ->
  completion (updateTouchState touchingNow dateNow) s = Normal tt /\
  Inv (after (updateTouchState touchingNow dateNow) s).
Proof.
  intros [I1 I2 I3 I4 I5 I6 I7 I8] R. destruct_state s. cbn in *.
  normalize_alarm I7 I8; subst;
    (destruct actx; [clear I2 | exfalso; now apply I2]);
    destruct touchingNow, touching, active; try discriminate (I4 eq_refl);
    try (destruct (I6 eq_refl); discriminate); exec.
  all: try (destruct (num_leb thr _); exec).
  all: try (destruct sound; exec).
  all: (split; [reflexivity|]).
  all: close_inv.
Qed.

Lemma processFrame_idle (dateNow : Z) (s : HandsOff) :
  isRunning s = false -> processFrame dateNow s = (Normal tt, s).
Proof. intros R. unfold processFrame, bind, read. now rewrite R. Qed.

Lemma processFrame_running (dateNow : Z) (s : HandsOff) :
  isRunning s = true ->
  processFrame dateNow s =
  bind touchingNowOfFrame (fun touchingNow =>
                             updateTouchState touchingNow dateNow)
       (draws [clearRect (of_int 0) (of_int 0)
                         (canvas_width (dom s)) (canvas_height (dom s))]
              s).
Proof.
  intros R. unfold processFrame, canvasWidth, canvasHeight.
  unfold bind at 1, read at 1. rewrite R. reflexivity.
Qed.

Lemma Inv_processFrame (dateNow : Z) (s : HandsOff) :
  Inv s -> Inv (after (processFrame dateNow) s).
Proof.
  intros I. unfold after. destruct (isRunning s) eqn:R.
  - rewrite (processFrame_running _ _ R).
    set (s1 := draws _ s).
    destruct (touchingNowOfFrame_draws s1) as (r & c & E).
    destruct r as [touchingNow|].
    + rewrite (bind_Normal _ _ _ _ _ E).
      apply Inv_updateTouchState; [|exact R].
      now apply Inv_draws, Inv_draws.
    + rewrite (bind_TypeError _ _ _ _ E). now apply Inv_draws, Inv_draws.
  - now rewrite (processFrame_idle _ _ R).
Qed.

Lemma Inv_stop (s : HandsOff) : Inv s -> Inv (after stop s).
Proof.
  intros [I1 I2 I3 I4 I5 I6 I7 I8]. destruct_state s. cbn in *.
  normalize_alarm I7 I8; subst; exec; close_inv.
Qed.

Lemma Inv_start outcome (s : HandsOff) :
  Inv s -> Inv (after (start outcome) s).
Proof.
  intros [I1 I2 I3 I4 I5 I6 I7 I8]. destruct_state s. cbn in *.
  destruct outcome; exec; close_inv.
Qed.

Lemma Inv_soundToggle_change checked (s : HandsOff) :
  Inv s -> Inv (after (soundToggle_change checked) s).
Proof.
  intros [I1 I2 I3 I4 I5 I6 I7 I8]. destruct_state s. cbn in *.
  normalize_alarm I7 I8; subst; destruct checked; exec; close_inv.
Qed.

Lemma Inv_interval_fires id (s : HandsOff) :
  Inv s -> Inv (after (interval_fires id) s).
Proof.
  intros [I1 I2 I3 I4 I5 I6 I7 I8]. destruct_state s. cbn in *.
  normalize_alarm I7 I8; subst; exec; cbn [find fst];
    try (destruct (Pos.eqb _ id) eqn:E; exec);
    try (destruct sound; exec); try (destruct active; exec);
    try (destruct actx; exec).
  all: constructor; exec; try tauto; try congruence;
    try (intros; split; congruence); cbn; rewrite ?E; try reflexivity.
  all: try (apply Pos.eqb_eq in E; subst; reflexivity).
Qed.

Lemma Inv_step (s : HandsOff) (e : Event) : Inv s -> Inv (step s e).
Proof.
  intros I. destruct e; unfold step, handler.
  - now apply Inv_start.
  - now apply Inv_stop.
  - now apply Inv_soundToggle_change.
  - destruct I; constructor; assumption.
  - destruct I; constructor; assumption.
  - unfold hands_onResults, after, bind, assign.
    now apply Inv_processFrame, Inv_set_lastHandResults.
  - destruct I; constructor; assumption.
  - now apply Inv_interval_fires.
Qed.

Lemma reachable_Inv (s : HandsOff) : reachable s -> Inv s.
Proof.
  induction 1 as [page|s e _ IH]; [apply Inv_new | now apply Inv_step].
Qed.


(** ** The geometry decision has no memory *)

(** C6. Two evaluations that see the same cached face result, the same
    cached hand result and the same proximity margin compute the same
    touching-now boolean (or both end with the same TypeError), whatever
    the touching state, the start time, the alert-armed flag and every
    other field are. *)
Theorem touchingNow_no_hysteresis (s1 s2 : HandsOff) :
  lastFaceResults s1 = lastFaceResults s2 ->
  lastHandResults s1 = lastHandResults s2 ->
  num_eq (proximityThreshold s1) (proximityThreshold s2) ->
  completion touchingNowOfFrame s1 = completion touchingNowOfFrame s2.
Proof.
  intros F H M.
  destruct (sim_touchingNowOfFrame s1 s2) as (r & c1 & c2 & E1 & E2).
  { repeat split; assumption. }
  unfold completion. now rewrite E1, E2.
Qed.

(** ** Evaluations and the calls they make *)

(** [updateTouchState] records its entry, then at most one call of
    [startAlarm] or [stopAlarm]. *)
Lemma updateTouchState_calls (touchingNow : bool) (dateNow : Z) (s : HandsOff) :
  exists rest,
    calls (host (after (updateTouchState touchingNow dateNow) s)) =
    calls (host s) ++ call_updateTouchState touchingNow :: rest /\
    filter is_evaluation rest = [].
Proof.
  destruct_state s.
  destruct touchingNow, touching, active; exec.
  all: try (destruct (num_leb thr _); exec).
  all: try (destruct sound; exec).
  all: try (destruct osc; exec).
  all: try (destruct actx; exec).
  all: try (destruct interval; exec).
  all: try (destruct gain; exec).
  all: rewrite <- ?app_assoc; cbn [app]; eexists; split;
    [reflexivity | reflexivity].
Qed.

(** A running frame that can be processed to its end enters
    [updateTouchState] once, with the boolean "some hand is near some
    face". *)
Lemma processFrame_enters (s : HandsOff) (dateNow : Z) :
  isRunning s = true ->
  drawable (faces_of s) (hands_of s) = true ->
  exists rest,
    calls (host (after (processFrame dateNow) s)) =
    calls (host s) ++
    call_updateTouchState
      (near_any_face (proximityThreshold s) (faces_of s) (hands_of s))
      :: rest /\
    filter is_evaluation rest = [].
Proof.
  intros R WF. unfold after. rewrite (processFrame_running _ _ R).
  set (s1 := draws _ s).
  destruct (touchingNowOfFrame_value s1) as (c & E).
  change (proximityThreshold s1) with (proximityThreshold s) in E.
  change (hands_of s1) with (hands_of s) in E.
  change (faces_of s1) with (faces_of s) in E.
  rewrite WF in E.
  rewrite (bind_Normal _ _ _ _ _ E).
  apply (updateTouchState_calls _ dateNow (draws c s1)).
Qed.

(** A running frame with a cached detection and a hand that is too short
    ends with a TypeError after drawing; [updateTouchState] is not
    reached and nothing but the canvas is written. *)
Lemma processFrame_undrawable (s : HandsOff) (dateNow : Z) :
  isRunning s = true ->
  drawable (faces_of s) (hands_of s) = false ->
  completion (processFrame dateNow) s = TypeError /\
  exists cmds, after (processFrame dateNow) s = draws cmds s.
Proof.
  intros R WF. unfold after, completion.
  rewrite (processFrame_running _ _ R). set (s1 := draws _ s).
  destruct (touchingNowOfFrame_value s1) as (c & E).
  change (hands_of s1) with (hands_of s) in E.
  change (faces_of s1) with (faces_of s) in E.
  rewrite WF in E.
  rewrite (bind_TypeError _ _ _ _ E).
  split; [reflexivity|]. subst s1. rewrite draws_draws. eexists; reflexivity.
Qed.

(** C1, amended. In every evaluation (a running frame that is processed
    to its end), the touching-now boolean passed to [updateTouchState] is
    true iff some present hand has a key point for which the test of
    [isHandNearFace] holds against the margin-expanded box of some
    detected face: every detection of the cached face result is tested,
    not only the first.  The box and the comparisons are the ones the
    code computes, in the arithmetic of the number system. *)
Theorem touchingNow_any_face (s : HandsOff) (dateNow : Z) :
  isRunning s = true ->
  drawable (faces_of s) (hands_of s) = true ->
  exists touchingNow rest,
    calls (host (after (processFrame dateNow) s)) =
    calls (host s) ++ call_updateTouchState touchingNow :: rest /\
    filter is_evaluation rest = [] /\
    (touchingNow = true <->
     exists d landmarks idx p,
       In d (faces_of s) /\ In landmarks (hands_of s) /\
       In idx keyPoints /\ nth_error landmarks idx = Some p /\
       inside p (expandedBox (boundingBox d) (proximityThreshold s)) = true).
Proof.
  intros R WF.
  destruct (processFrame_enters s dateNow R WF) as (rest & Hcalls & Hrest).
  eexists; exists rest. split; [exact Hcalls|]. split; [exact Hrest|].
  now apply near_any_face_true_iff.
Qed.

(** ** The touch state machine *)

Lemma alarm_starts_snoc (cls : list Call) (c : Call) :
  List.length (filter is_startAlarm (cls ++ [c])) =
  (List.length (filter is_startAlarm cls) + if is_startAlarm c then 1 else 0)%nat.
Proof.
  rewrite filter_app, length_app. cbn. now destruct (is_startAlarm c).
Qed.

(** CLEAR, [touchingNow = true]: a session starts at this evaluation. *)
Lemma touch_begins (dateNow : Z) (s : HandsOff) :
  isTouching s = false ->
  let s' := after (updateTouchState true dateNow) s in
  isTouching s' = true /\
  touchStartTime s' = Some (seconds dateNow) /\
  alertActive s' = false /\
  touchThreshold s' = touchThreshold s /\
  alarm_starts s' = alarm_starts s.
Proof.
  intros T. destruct_state s. cbn in T. subst touching.
  unfold alarm_starts. exec. repeat split.
  rewrite alarm_starts_snoc. cbn. lia.
Qed.

(** Touching, [touchingNow = true]: the alarm is started when the
    computed duration compares [>=] with the threshold and the alert is
    not armed yet. *)
Lemma touch_continues (dateNow : Z) (s : HandsOff) :
  isTouching s = true ->
  let duration := num_sub (seconds dateNow) (toNumber (touchStartTime s)) in
  let s' := after (updateTouchState true dateNow) s in
  isTouching s' = true /\
  touchStartTime s' = touchStartTime s /\
  touchThreshold s' = touchThreshold s /\
  alertActive s' = alertActive s || num_leb (touchThreshold s) duration /\
  alarm_starts s' =
  (alarm_starts s +
   if num_leb (touchThreshold s) duration && negb (alertActive s)
   then 1 else 0)%nat.
Proof.
  intros T. destruct_state s. cbn in T. subst touching.
  unfold alarm_starts, seconds. exec.
  destruct (num_leb thr _), active; exec.
  all: try (destruct sound; exec).
  all: try (destruct osc; exec).
  all: try (destruct actx; exec).
  all: try (destruct gain; exec).
  all: repeat split; rewrite ?alarm_starts_snoc; cbn; lia.
Qed.

Lemma touching_run_state (t0 : Z) (times : list Z) :
  forall s,
    isTouching s = true ->
    touchStartTime s = Some (seconds t0) ->
    let crossed v := num_leb (touchThreshold s) (elapsed t0 v) in
    let s' := touching_run times s in
    isTouching s' = true /\
    touchStartTime s' = Some (seconds t0) /\
    touchThreshold s' = touchThreshold s /\
    alertActive s' = alertActive s || existsb crossed times /\
    alarm_starts s' =
    (alarm_starts s +
     if existsb crossed times && negb (alertActive s) then 1 else 0)%nat.
Proof.
  induction times as [|t times IH]; intros s T S; cbn [touching_run fold_left].
  - cbn. rewrite orb_false_r. repeat split; auto.
  - destruct (touch_continues t s T) as (T1 & S1 & H1 & A1 & C1).
    rewrite S in S1, A1, C1. cbn [toNumber] in A1, C1.
    fold (elapsed t0 t) in A1, C1.
    destruct (IH _ T1 S1) as (T2 & S2 & H2 & A2 & C2).
    fold (touching_run times (after (updateTouchState true t) s)) .
    rewrite H1 in H2, A2, C2.
    repeat split; try assumption; try congruence.
    + rewrite A2, A1. cbn [existsb]. now rewrite orb_assoc.
    + rewrite C2, C1, A1. cbn [existsb].
      destruct (alertActive s), (num_leb (touchThreshold s) (elapsed t0 t)),
        (existsb (fun v => num_leb (touchThreshold s) (elapsed t0 v)) times);
        cbn; lia.
Qed.

(** C3, amended. In a run of consecutive evaluations with
    [touchingNow = true] that starts at [t0] from a state that is not
    touching, the opening evaluation records the start and never arms the
    alert; after it, the alert is armed exactly from the first evaluation
    on whose duration, as the code computes it
    ([Date.now() / 1000 - touchStartTime] in the arithmetic of the number
    system), compares [>=] with the threshold; [startAlarm] is called by
    that evaluation and by no other one of the run. *)
Theorem alerting_entered_once (s : HandsOff) (done : list Z) (u : Z) :
  isTouching s = false ->
  let t0 := hd u done in
  let crossed v := num_leb (touchThreshold s) (elapsed t0 v) in
  let before := touching_run done s in
  let now := after (updateTouchState true u) before in
  isTouching now = true /\
  touchStartTime now = Some (seconds t0) /\
  match done with
  | [] => alertActive now = false /\ alarm_starts now = alarm_starts s
  | _ :: later =>
      alertActive before = existsb crossed later /\
      alertActive now = existsb crossed later || crossed u /\
      alarm_starts now =
      (alarm_starts before +
       if crossed u && negb (existsb crossed later) then 1 else 0)%nat /\
      alarm_starts now =
      (alarm_starts s + if existsb crossed later || crossed u then 1 else 0)%nat
  end.
Proof.
  intros T. destruct done as [|t0 later]; cbn [hd].
  - cbn [touching_run fold_left].
    destruct (touch_begins u s T) as (T1 & S1 & A1 & _ & C1).
    repeat split; assumption.
  - cbn [touching_run fold_left].
    destruct (touch_begins t0 s T) as (T1 & S1 & A1 & H1 & C1).
    fold (touching_run later (after (updateTouchState true t0) s)).
    destruct (touching_run_state t0 later _ T1 S1) as (T2 & S2 & H2 & A2 & C2).
    rewrite H1 in *. rewrite A1 in A2, C2. cbn [orb negb] in A2, C2.
    rewrite andb_true_r in C2.
    destruct (touch_continues u _ T2) as (T3 & S3 & H3 & A3 & C3).
    rewrite S2, H2 in *. cbn [toNumber] in A3, C3. fold (elapsed t0 u) in A3, C3.
    rewrite A2 in A3, C3.
    repeat split; auto.
    rewrite C3, C2, C1.
    destruct (existsb _ later), (num_leb _ (elapsed t0 u)); cbn; lia.
Qed.

(** [touchingNow = false]: the machine is CLEAR and the alarm is off. *)
Lemma touch_ends (dateNow : Z) (s : HandsOff) :
  Inv s ->
  let s' := after (updateTouchState false dateNow) s in
  isTouching s' = false /\
  touchStartTime s' = None /\
  alertActive s' = false /\
  alarmInterval s' = None /\
  alarmGain s' = None /\
  alarmOscillator s' = None /\
  intervals (host s') = [] /\
  destination (host s') = [] /\
  statusText (dom s') = "Clear"%string /\
  statusDot (dom s') = false /\
  alertOverlay (dom s') = false /\
  touchThreshold s' = touchThreshold s.
Proof.
  intros [I1 I2 I3 I4 I5 I6 I7 I8]. destruct_state s. cbn in *.
  normalize_alarm I7 I8; subst;
    destruct touching, active; try discriminate (I4 eq_refl);
    try (destruct (I6 eq_refl); discriminate); exec.
  all: unfold without_timer, without; cbn; rewrite ?Pos.eqb_refl; cbn.
  all: repeat split; reflexivity.
Qed.

(** C4. From every reachable state, one evaluation with
    [touchingNow = false] leaves the machine CLEAR: start time and
    alert-armed flag cleared, alarm stopped (no timer, no audio node), status
    "Clear".  The next evaluation with [touchingNow = true] starts a session
    at its own time, not armed, and the evaluation after that arms the alert
    iff the duration the code computes from that start compares [>=] with
    the threshold: nothing is carried over the gap. *)
Theorem gap_resets_session (s : HandsOff) (t1 t2 t3 : Z) :
  reachable s ->
  let clear := after (updateTouchState false t1) s in
  let fresh := after (updateTouchState true t2) clear in
  let next := after (updateTouchState true t3) fresh in
  (isTouching clear = false /\
   touchStartTime clear = None /\
   alertActive clear = false /\
   alarmInterval clear = None /\
   alarmGain clear = None /\
   alarmOscillator clear = None /\
   intervals (host clear) = [] /\
   destination (host clear) = [] /\
   statusText (dom clear) = "Clear"%string /\
   statusDot (dom clear) = false /\
   alertOverlay (dom clear) = false) /\
  (isTouching fresh = true /\
   touchStartTime fresh = Some (seconds t2) /\
   alertActive fresh = false /\
   alarm_starts fresh = alarm_starts clear) /\
  alertActive next = num_leb (touchThreshold s) (elapsed t2 t3).
Proof.
  intros Hreach. pose proof (reachable_Inv s Hreach) as I.
  destruct (touch_ends t1 s I)
    as (T1 & S1 & A1 & I1 & G1 & O1 & V1 & D1 & X1 & Y1 & Z1 & H1).
  destruct (touch_begins t2 _ T1) as (T2 & S2 & A2 & H2 & C2).
  destruct (touch_continues t3 _ T2) as (_ & _ & _ & A3 & _).
  cbv zeta. repeat split; try assumption.
  rewrite A3, A2, S2, H2, H1. reflexivity.
Qed.

(** ** The alarm *)

(** [stopAlarm] on an alarm that is not running changes no field. *)
Lemma stopAlarm_idle (s : HandsOff) :
  alarmInterval s = None -> alarmGain s = None -> alarmOscillator s = None ->
  stopAlarm s =
  (Normal tt, set_host (set_calls (calls (host s) ++ [call_stopAlarm]) (host s)) s).
Proof.
  intros I G O. destruct_state s. cbn in *. subst. reflexivity.
Qed.

(** In a running reachable state with sound enabled the guard of
    [startAlarm] never holds: every call registers one more timer. *)
Lemma startAlarm_registers_timer (s : HandsOff) :
  reachable s -> isRunning s = true -> enableSound s = true ->
  completion startAlarm s = Normal tt /\
  List.length (intervals (host (after startAlarm s))) =
  S (List.length (intervals (host s))).
Proof.
  intros Hreach R E.
  destruct (reachable_Inv s Hreach) as [I1 I2 I3 I4 I5 I6 I7 I8].
  destruct_state s. cbn in *. subst.
  destruct actx; [| exfalso; now apply I2]. exec.
  destruct active; exec; rewrite length_app; cbn; split; try reflexivity; lia.
Qed.

(** ** Sound toggle *)

(** C7. In a reachable ALERTING state, unchecking the sound toggle stops
    the alarm at once (its timer is cancelled, its node is disconnected,
    the handles are cleared, nothing is left with the browser, so that no
    timer can fire any more) and leaves
    the alert-armed flag, the touching state, the start time, the whole
    page (status, overlay, duration text, canvas), the settings other than
    the sound flag and the cached results as they were. *)
Theorem sound_off_while_alerting (s : HandsOff) :
  reachable s ->
  isTouching s = true ->
  alertActive s = true ->
  let s' := after (soundToggle_change false) s in
  completion (soundToggle_change false) s = Normal tt /\
  (enableSound s' = false /\
   alarmInterval s' = None /\ alarmGain s' = None /\
   alarmOscillator s' = None /\
   intervals (host s') = [] /\ destination (host s') = [] /\
   forall id, step s' (IntervalFires id) = s') /\
  (alertActive s' = true /\
   isTouching s' = true /\
   touchStartTime s' = touchStartTime s /\
   dom s' = dom s /\
   isRunning s' = isRunning s /\
   touchThreshold s' = touchThreshold s /\
   proximityThreshold s' = proximityThreshold s /\
   lastHandResults s' = lastHandResults s /\
   lastFaceResults s' = lastFaceResults s /\
   audioContext s' = audioContext s /\
   beeps (host s') = beeps (host s) /\
   console (host s') = console (host s)).
Proof.
  intros Hreach T A.
  destruct (reachable_Inv s Hreach) as [I1 I2 I3 I4 I5 I6 I7 I8].
  destruct_state s. cbn in *.
  normalize_alarm I7 I8; subst; exec.
  all: unfold without_timer, without; cbn; rewrite ?Pos.eqb_refl; cbn.
  all: repeat split; reflexivity.
Qed.

(** ** The clock going backward *)

(** C5, amended. When the clock reading is so much earlier than the
    recorded start time that the duration the code computes,
    [Date.now() / 1000 - touchStartTime], is negative, the evaluation
    completes normally, and the duration is not clamped: if the alert is
    armed after an evaluation with [touchingNow = true], the duration text
    is "Duration: ", the computed duration printed by [toFixed(1)], which
    begins with a minus sign, and "s"; otherwise the duration text is left
    as it was. *)
Theorem clock_backward_not_clamped
    (s : HandsOff) (touchingNow : bool) (dateNow : Z) (startTime : num) :
  reachable s ->
  touchStartTime s = Some startTime ->
  num_negative (num_sub (seconds dateNow) startTime) = true ->
  let duration := num_sub (seconds dateNow) startTime in
  let s' := after (updateTouchState touchingNow dateNow) s in
  completion (updateTouchState touchingNow dateNow) s = Normal tt /\
  (exists digits, toFixed1 duration = ("-" ++ digits)%string) /\
  (if touchingNow && alertActive s'
   then durationText (dom s') =
        ("Duration: " ++ toFixed1 duration ++ "s")%string
   else durationText (dom s') = durationText (dom s)).
Proof.
  intros Hreach S Hback. pose proof (reachable_Inv s Hreach) as I.
  assert (T : isTouching s = true).
  { apply (inv_session s I). rewrite S. discriminate. }
  pose proof (inv_running s I T) as R.
  cbv zeta. split; [now apply Inv_updateTouchState|].
  split; [now apply toFixed1_negative|]. clear Hback.
  destruct I as [I1 I2 I3 I4 I5 I6 I7 I8].
  destruct_state s. cbn in *. subst. unfold seconds.
  destruct actx; [| exfalso; now apply I2].
  destruct touchingNow, active; exec; try reflexivity.
  all: try (destruct (num_leb thr _)); exec; try reflexivity.
  all: try (destruct sound; exec; reflexivity).
  all: destruct interval, gain; exec; reflexivity.
Qed.

(** ** What triggers an evaluation *)

Lemma step_hand_arrival (s : HandsOff) (results : HandResults) (dateNow : Z) :
  step s (HandResultsArrive results dateNow) =
  after (processFrame dateNow) (set_lastHandResults (Some results) s).
Proof. reflexivity. Qed.

Lemma hands_of_arrival (s : HandsOff) (results : HandResults) :
  hands_of (set_lastHandResults (Some results) s) = landmarks_of results.
Proof. destruct results as [[multi|]]; reflexivity. Qed.

Lemma updateTouchState_lastFaceResults touchingNow dateNow (s : HandsOff) :
  lastFaceResults (after (updateTouchState touchingNow dateNow) s) =
  lastFaceResults s.
Proof.
  destruct_state s. destruct touchingNow, touching; exec.
  all: try (destruct (num_leb thr _); exec).
  all: all_cases; reflexivity.
Qed.

(** Events other than the arrival of a hand result enter no evaluation and
    leave the cached face result alone, unless they are the arrival of a
    face result. *)
Lemma step_other (s : HandsOff) (e : Event) :
  (forall results dateNow, e <> HandResultsArrive results dateNow) ->
  (exists rest, calls (host (step s e)) = calls (host s) ++ rest /\
                filter is_evaluation rest = []) /\
  lastFaceResults (step s e) =
  match e with
  | FaceResultsArrive results => Some results
  | _ => lastFaceResults s
  end.
Proof.
  intros Hother. destruct_state s.
  destruct e; try (now elim (Hother results dateNow)); exec.
  all: try (destruct (find _ ivs) as [[? ?]|]; exec).
  all: all_cases.
  all: split; [|reflexivity].
  all: eexists; split;
    [ first [ symmetry; apply app_nil_r | reflexivity ] | reflexivity ].
Qed.

Lemma evaluations_app (cls rest : list Call) :
  List.length (filter is_evaluation (cls ++ rest)) =
  (List.length (filter is_evaluation cls) +
   List.length (filter is_evaluation rest))%nat.
Proof. now rewrite filter_app, length_app. Qed.

Lemma step_lastFaceResults (s : HandsOff) (e : Event) :
  lastFaceResults (step s e) =
  match e with
  | FaceResultsArrive results => Some results
  | _ => lastFaceResults s
  end.
Proof.
  assert (Hhand : (exists results dateNow, e = HandResultsArrive results dateNow)
                  \/ forall results dateNow, e <> HandResultsArrive results dateNow).
  { destruct e; try (right; intros; discriminate). left; eauto. }
  destruct Hhand as [(results & dateNow & ->)|Hother].
  - rewrite step_hand_arrival. set (s1 := set_lastHandResults _ s).
    change (lastFaceResults s) with (lastFaceResults s1).
    unfold after. destruct (isRunning s1) eqn:R.
    + rewrite (processFrame_running _ s1 R). set (s2 := draws _ s1).
      destruct (touchingNowOfFrame_draws s2) as (r & c & E).
      destruct r as [touchingNow|].
      * rewrite (bind_Normal _ _ _ _ _ E).
        apply (updateTouchState_lastFaceResults touchingNow dateNow (draws c s2)).
      * now rewrite (bind_TypeError _ _ _ _ E).
    + now rewrite (processFrame_idle _ s1 R).
  - apply (step_other s e Hother).
Qed.

Lemma run_lastFaceResults (events : list Event) :
  forall s, lastFaceResults (run events s) =
            latest_face events (lastFaceResults s).
Proof.
  induction events as [|e events IH]; intros s; [reflexivity|].
  cbn [run fold_left latest_face].
  fold (run events (step s e)). rewrite IH, step_lastFaceResults.
  now destruct e.
Qed.

(** The calls an event adds: one evaluation, with the boolean computed
    from the cached faces and the arriving hands, when the event
    evaluates; no evaluation otherwise. *)
Lemma step_calls (s : HandsOff) (e : Event) :
  if evaluates s e
  then exists rest,
         calls (host (step s e)) =
         calls (host s) ++
         call_updateTouchState
           (near_any_face (proximityThreshold s) (faces_of s)
                          (arriving_hands e)) :: rest /\
         filter is_evaluation rest = []
  else exists rest,
         calls (host (step s e)) = calls (host s) ++ rest /\
         filter is_evaluation rest = [].
Proof.
  assert (Hhand : (exists results dateNow, e = HandResultsArrive results dateNow)
                  \/ forall results dateNow, e <> HandResultsArrive results dateNow).
  { destruct e; try (right; intros; discriminate). left; eauto. }
  destruct Hhand as [(results & dateNow & ->)|Hother].
  - rewrite step_hand_arrival. cbn [evaluates arriving_hands].
    set (s1 := set_lastHandResults (Some results) s).
    change (isRunning s) with (isRunning s1).
    change (faces_of s) with (faces_of s1).
    change (proximityThreshold s) with (proximityThreshold s1).
    change (calls (host s)) with (calls (host s1)).
    rewrite <- (hands_of_arrival s results). fold s1.
    destruct (isRunning s1) eqn:R; cbn [andb].
    + destruct (drawable (faces_of s1) (hands_of s1)) eqn:W.
      * exact (processFrame_enters s1 dateNow R W).
      * destruct (processFrame_undrawable s1 dateNow R W) as (_ & c & ->).
        exists []. split; [|reflexivity]. cbn. now rewrite app_nil_r.
    + unfold after. rewrite (processFrame_idle _ s1 R). cbn [snd].
      exists []. split; [|reflexivity]. now rewrite app_nil_r.
  - replace (evaluates s e) with false
      by (destruct e; try reflexivity; now elim (Hother results dateNow)).
    apply (step_other s e Hother).
Qed.

(** C9, amended. An evaluation (one call of [updateTouchState], with the
    touching-now boolean of the geometry test) is run by the arrival of a
    hand result while the system is running, when the frame can be
    processed to its end: no detection is cached, or every arriving hand
    has the 21 landmarks that drawing it reads.  Every other event, and a
    hand result that arrives while the system is stopped or brings a
    shorter hand while a detection is cached, runs none.  The boolean is
    computed from the face result cached at that moment; the arrival of a
    face result only overwrites the cached face result; and the cached
    face result is the one of the latest face arrival, however many other
    events have happened since. *)
Theorem evaluation_on_hand_arrival (s : HandsOff) (e : Event) :
  let s' := step s e in
  (if evaluates s e
   then exists touchingNow rest,
          calls (host s') =
          calls (host s) ++ call_updateTouchState touchingNow :: rest /\
          filter is_evaluation rest = [] /\
          (touchingNow = true <->
           exists d landmarks idx p,
             In d (faces_of s) /\ In landmarks (arriving_hands e) /\
             In idx keyPoints /\ nth_error landmarks idx = Some p /\
             inside p (expandedBox (boundingBox d) (proximityThreshold s))
             = true)
   else exists rest,
          calls (host s') = calls (host s) ++ rest /\
          filter is_evaluation rest = []) /\
  evaluations s' = (evaluations s + if evaluates s e then 1 else 0)%nat /\
  match e with
  | FaceResultsArrive faces => s' = set_lastFaceResults (Some faces) s
  | _ => lastFaceResults s' = lastFaceResults s
  end /\
  (forall events,
      lastFaceResults (run events s) =
      latest_face events (lastFaceResults s)).
Proof.
  cbv zeta. pose proof (step_calls s e) as H.
  split; [|split; [|split]].
  - destruct (evaluates s e) eqn:Ev.
    + destruct H as (rest & Hcalls & Hrest).
      eexists; exists rest. split; [exact Hcalls|]. split; [exact Hrest|].
      apply near_any_face_true_iff.
      destruct e; try discriminate Ev. cbn [evaluates arriving_hands] in *.
      now apply andb_true_iff in Ev.
    + exact H.
  - unfold evaluations.
    destruct (evaluates s e); destruct H as (rest & -> & Hrest);
      rewrite evaluations_app; cbn [filter is_evaluation List.length];
      rewrite Hrest; cbn; lia.
  - pose proof (step_lastFaceResults s e) as F.
    destruct e; try exact F. reflexivity.
  - intros events. apply run_lastFaceResults.
Qed.

(** C10. While the system is not running, [processFrame] returns at once
    and changes nothing, so the arrival of a hand result only stores the
    result in the cache: the touching state, the start time, the
    alert-armed flag, the alarm handles, the timers and nodes held by the
    browser, the status label, the canvas and everything else on the page
    stay as they were. *)
Theorem idle_hand_arrival_changes_nothing
    (s : HandsOff) (results : HandResults) (dateNow : Z) :
  isRunning s = false ->
  let s' := step s (HandResultsArrive results dateNow) in
  processFrame dateNow s = (Normal tt, s) /\
  s' = set_lastHandResults (Some results) s /\
  (isTouching s' = isTouching s /\
   touchStartTime s' = touchStartTime s /\
   alertActive s' = alertActive s /\
   alarmOscillator s' = alarmOscillator s /\
   alarmGain s' = alarmGain s /\
   alarmInterval s' = alarmInterval s /\
   host s' = host s /\
   statusText (dom s') = statusText (dom s) /\
   ctx (dom s') = ctx (dom s) /\
   dom s' = dom s).
Proof.
  intros R. cbv zeta. split; [now apply processFrame_idle|].
  rewrite step_hand_arrival. unfold after.
  rewrite (processFrame_idle dateNow (set_lastHandResults (Some results) s) R).
  cbn [snd]. repeat split.
Qed.


(** * Further properties *)

(** ** The proximity test reads six landmarks *)

Lemma anyKeyPointInside_ext lm1 lm2 box indices s :
  (forall idx, In idx indices -> nth_error lm1 idx = nth_error lm2 idx) ->
  anyKeyPointInside lm1 box indices s = anyKeyPointInside lm2 box indices s.
Proof.
  induction indices as [|idx rest IH]; intros H; cbn [anyKeyPointInside].
  - reflexivity.
  - unfold bind. rewrite (H idx (or_introl eq_refl)).
    destruct (nth_error lm2 idx) as [p|]; cbn [member ret throw];
      [|reflexivity].
    destruct (inside p box); [reflexivity|].
    apply IH. intros i Hi. apply H. now right.
Qed.

(** X1. Only the wrist and the five fingertips count: two hands that
    agree at the indices 0, 4, 8, 12, 16 and 20 get the same answer from
    [isHandNearFace] (the same boolean, or both a TypeError), whatever
    their other landmarks are and however many they have. *)
Theorem isHandNearFace_key_points_only
    (s : HandsOff) (hand1 hand2 : list Landmark) (faceBbox : BoundingBox) :
  (forall idx, In idx keyPoints -> nth_error hand1 idx = nth_error hand2 idx) ->
  isHandNearFace hand1 faceBbox s = isHandNearFace hand2 faceBbox s.
Proof.
  intros H. unfold isHandNearFace, bind, read.
  now apply anyKeyPointInside_ext.
Qed.

Lemma anyKeyPointInside_missing lm box indices s :
  (exists idx, In idx indices /\ (List.length lm <= idx)%nat) ->
  completion (anyKeyPointInside lm box indices) s <> Normal false.
Proof.
  unfold completion.
  induction indices as [|idx rest IH]; intros (i & Hi & Hlen).
  - destruct Hi.
  - cbn [anyKeyPointInside]. unfold bind.
    destruct (nth_error lm idx) as [p|] eqn:E; cbn [member ret throw].
    + destruct (inside p box); [cbn; discriminate|].
      apply IH. destruct Hi as [->|Hi]; [|now exists i].
      apply nth_error_None in Hlen. congruence.
    + cbn. discriminate.
Qed.

(** X2. On a hand of fewer than 21 landmarks [isHandNearFace] never
    answers [false]: it returns [true] at a key point that is present and
    passes the test, or ends with a TypeError at the first missing key
    point; on a hand without landmarks it always ends with a TypeError. *)
Theorem isHandNearFace_short_hand
    (s : HandsOff) (handLandmarks : list Landmark) (faceBbox : BoundingBox) :
  long_enough handLandmarks = false ->
  completion (isHandNearFace handLandmarks faceBbox) s <> Normal false /\
  completion (isHandNearFace [] faceBbox) s = TypeError.
Proof.
  intros H. split; [|reflexivity].
  unfold isHandNearFace, completion, bind, read.
  apply (anyKeyPointInside_missing handLandmarks _ keyPoints s).
  exists 20%nat. split.
  - unfold keyPoints. cbn. tauto.
  - unfold long_enough in H. apply Nat.leb_gt in H. lia.
Qed.

(** ** Drawing *)

(** X3. [drawHandLandmarks] completes normally exactly on hands of at
    least 21 landmarks and ends with a TypeError on shorter ones; either
    way it writes nothing but the canvas. *)
Theorem drawHandLandmarks_completion (landmarks : list Landmark) (s : HandsOff) :
  exists cmds,
    drawHandLandmarks landmarks s =
    ((if long_enough landmarks then Normal tt else TypeError), draws cmds s).
Proof.
  destruct (long_enough landmarks) eqn:W.
  - now apply drawHandLandmarks_long.
  - now apply drawHandLandmarks_short.
Qed.

(** ** Frames *)

Lemma updateTouchState_ctx touchingNow dateNow (s : HandsOff) :
  ctx (dom (after (updateTouchState touchingNow dateNow) s)) = ctx (dom s).
Proof.
  destruct_state s. destruct touchingNow, touching; exec.
  all: try (destruct (num_leb thr _); exec).
  all: all_cases; reflexivity.
Qed.

Lemma updateTouchState_false (dateNow : Z) (s : HandsOff) :
  let s' := after (updateTouchState false dateNow) s in
  completion (updateTouchState false dateNow) s = Normal tt /\
  isTouching s' = false /\
  touchStartTime s' = None /\
  alertActive s' = false /\
  alertOverlay (dom s') = false /\
  statusText (dom s') = "Clear"%string.
Proof.
  destruct_state s. destruct touching; exec.
  all: all_cases; repeat split; reflexivity.
Qed.

Lemma near_any_face_nothing margin faces hands :
  faces = [] \/ hands = [] -> near_any_face margin faces hands = false.
Proof.
  intros [->| ->]; [reflexivity|]. unfold near_any_face.
  induction faces as [|d ds IH]; [reflexivity | exact IH].
Qed.

Lemma drawable_nothing (faces : list Detection) (hands : list (list Landmark)) :
  faces = [] \/ hands = [] -> drawable faces hands = true.
Proof. intros [->| ->]; [reflexivity|]. now destruct faces. Qed.

(** X4. Without a cached face detection, or without a hand, there is no
    touch: a running evaluation calls [updateTouchState(false)], completes
    normally and leaves the machine CLEAR.  With no face the hands are
    not even looked at. *)
Theorem processFrame_nothing_to_compare (s : HandsOff) (dateNow : Z) :
  isRunning s = true ->
  faces_of s = [] \/ hands_of s = [] ->
  let s' := after (processFrame dateNow) s in
  completion (processFrame dateNow) s = Normal tt /\
  (exists rest, calls (host s') =
                calls (host s) ++ call_updateTouchState false :: rest) /\
  isTouching s' = false /\
  touchStartTime s' = None /\
  alertActive s' = false /\
  alertOverlay (dom s') = false /\
  statusText (dom s') = "Clear"%string.
Proof.
  intros R H. cbv zeta. unfold after, completion.
  rewrite (processFrame_running _ _ R). set (s1 := draws _ s).
  destruct (touchingNowOfFrame_value s1) as (c & E).
  change (hands_of s1) with (hands_of s) in E.
  change (faces_of s1) with (faces_of s) in E.
  rewrite (drawable_nothing _ _ H), (near_any_face_nothing _ _ _ H) in E.
  rewrite (bind_Normal _ _ _ _ _ E).
  destruct (updateTouchState_false dateNow (draws c s1))
    as (Cm & T & S & A & O & X).
  destruct (updateTouchState_calls false dateNow (draws c s1))
    as (rest & Hcalls & _).
  repeat split; try assumption. now exists rest.
Qed.

(** X5. A malformed hand skips the frame: when a face detection is
    cached and some hand of the cached hand result has fewer than 21
    landmarks, a running evaluation ends with a TypeError after drawing,
    and nothing but the canvas is written: no call of [updateTouchState],
    the touch state and the timers stay as they were. *)
Theorem processFrame_malformed_hand
    (s : HandsOff) (dateNow : Z) (landmarks : list Landmark) :
  isRunning s = true ->
  faces_of s <> [] ->
  In landmarks (hands_of s) ->
  long_enough landmarks = false ->
  let s' := after (processFrame dateNow) s in
  completion (processFrame dateNow) s = TypeError /\
  (exists cmds, s' = draws cmds s) /\
  calls (host s') = calls (host s) /\
  isTouching s' = isTouching s /\
  touchStartTime s' = touchStartTime s /\
  alertActive s' = alertActive s /\
  intervals (host s') = intervals (host s).
Proof.
  intros R F H W. cbv zeta.
  assert (D : drawable (faces_of s) (hands_of s) = false).
  { destruct (faces_of s) as [|d ds]; [congruence|]. cbn [drawable].
    apply not_true_is_false. intros A.
    rewrite (proj1 (forallb_forall _ _) A landmarks H) in W. discriminate. }
  destruct (processFrame_undrawable s dateNow R D) as (E & c & ->).
  split; [exact E|]. split; [now exists c|]. repeat split.
Qed.

(** X6. Every running evaluation first clears the whole canvas: the
    first call it makes on the context is [clearRect(0, 0, width,
    height)], also when it later ends with a TypeError. *)
Theorem processFrame_clears_first (s : HandsOff) (dateNow : Z) :
  isRunning s = true ->
  exists rest,
    ctx (dom (after (processFrame dateNow) s)) =
    ctx (dom s) ++
    clearRect (of_int 0) (of_int 0)
              (canvas_width (dom s)) (canvas_height (dom s)) :: rest.
Proof.
  intros R. unfold after. rewrite (processFrame_running _ _ R).
  set (s1 := draws _ s).
  destruct (touchingNowOfFrame_draws s1) as (r & c & E).
  exists c. destruct r as [touchingNow|].
  - rewrite (bind_Normal _ _ _ _ _ E).
    pose proof (updateTouchState_ctx touchingNow dateNow (draws c s1)) as Hc.
    unfold after in Hc. rewrite Hc.
    subst s1. unfold draws; cbn. now rewrite <- app_assoc.
  - rewrite (bind_TypeError _ _ _ _ E).
    subst s1. unfold draws; cbn. now rewrite <- app_assoc.
Qed.

(** ** The alarm over the reachable states *)

Ltac close_ainv :=
  constructor; exec; cbn;
  try (split; intros; first [reflexivity | congruence | tauto]);
  try (intros; first [reflexivity | congruence | tauto]);
  rewrite ?Pos.eqb_refl; cbn;
  repeat first [apply Forall_nil | apply Forall_cons]; cbn;
  first [assumption | lia].

Lemma AlarmInv_new (page : Dom) : AlarmInv (new_HandsOff page).
Proof. constructor; cbn; [tauto | congruence | constructor]. Qed.

Lemma AlarmInv_draws (cmds : list CtxCall) (s : HandsOff) :
  AlarmInv s -> AlarmInv (draws cmds s).
Proof. intros []; constructor; assumption. Qed.

Lemma AlarmInv_updateTouchState (touchingNow : bool) (dateNow : Z) (s : HandsOff) :
  Inv s -> AlarmInv s -> isRunning s = true ->
  AlarmInv (after (updateTouchState touchingNow dateNow) s).
Proof.
  intros [I1 I2 I3 I4 I5 I6 I7 I8] [A1 A2 A3] R. destruct_state s. cbn in *.
  normalize_alarm I7 I8; subst;
    (destruct actx; [clear I2 | exfalso; now apply I2]);
    destruct touchingNow, touching, active; try discriminate (I4 eq_refl);
    try (destruct (I6 eq_refl); discriminate); exec.
  all: try (destruct (num_leb thr _); exec).
  all: try (destruct sound; exec).
  all: try (apply Forall_inv in A3; cbn in A3).
  all: close_ainv.
Qed.

Lemma AlarmInv_processFrame (dateNow : Z) (s : HandsOff) :
  Inv s -> AlarmInv s -> AlarmInv (after (processFrame dateNow) s).
Proof.
  intros I A. unfold after. destruct (isRunning s) eqn:R.
  - rewrite (processFrame_running _ _ R).
    set (s1 := draws _ s).
    destruct (touchingNowOfFrame_draws s1) as (r & c & E).
    destruct r as [touchingNow|].
    + rewrite (bind_Normal _ _ _ _ _ E).
      apply AlarmInv_updateTouchState; [| |exact R].
      * now apply Inv_draws, Inv_draws.
      * now apply AlarmInv_draws, AlarmInv_draws.
    + rewrite (bind_TypeError _ _ _ _ E). now apply AlarmInv_draws, AlarmInv_draws.
  - now rewrite (processFrame_idle _ _ R).
Qed.

Lemma AlarmInv_step (s : HandsOff) (e : Event) :
  Inv s -> AlarmInv s -> AlarmInv (step s e).
Proof.
  intros I A. destruct e.
  - destruct A as [A1 A2 A3]. destruct_state s. cbn in *.
    destruct outcome; exec; constructor; assumption.
  - destruct I as [I1 I2 I3 I4 I5 I6 I7 I8], A as [A1 A2 A3].
    destruct_state s. cbn in *.
    normalize_alarm I7 I8; subst; exec; close_ainv.
  - destruct I as [I1 I2 I3 I4 I5 I6 I7 I8], A as [A1 A2 A3].
    destruct_state s. cbn in *.
    normalize_alarm I7 I8; subst; destruct checked; exec;
      try (apply Forall_inv in A3; cbn in A3); close_ainv.
  - destruct A; constructor; assumption.
  - destruct A; constructor; assumption.
  - rewrite step_hand_arrival. apply AlarmInv_processFrame.
    + now apply Inv_set_lastHandResults.
    + destruct A; constructor; assumption.
  - destruct A; constructor; assumption.
  - destruct I as [I1 I2 I3 I4 I5 I6 I7 I8], A as [A1 A2 A3].
    destruct_state s. cbn in *.
    normalize_alarm I7 I8; subst; exec; cbn [find fst];
      try (destruct (Pos.eqb _ id) eqn:E; exec);
      try (destruct sound; exec); try (destruct active; exec);
      try (destruct actx; exec);
      try (apply Forall_inv in A3; cbn in A3).
    all: constructor; exec; cbn; rewrite ?E; cbn;
      try (split; intros; first [reflexivity | congruence | tauto]);
      try (intros; first [reflexivity | congruence | tauto | now apply A2]);
      repeat first [apply Forall_nil | apply Forall_cons]; cbn;
      first [assumption | lia | destruct (snd _); lia].
Qed.

Lemma reachable_AlarmInv (s : HandsOff) : reachable s -> AlarmInv s.
Proof.
  induction 1 as [page|s e Hr IH]; [apply AlarmInv_new|].
  apply AlarmInv_step; [now apply reachable_Inv | exact IH].
Qed.

Lemma alarm_state (s : HandsOff) :
  reachable s ->
  (alarmInterval s = None /\ alarmGain s = None /\
   intervals (host s) = [] /\ destination (host s) = []) \/
  (exists id node freqIndex,
      alarmInterval s = Some id /\ alarmGain s = Some node /\
      intervals (host s) = [(id, freqIndex)] /\ (freqIndex < 2)%nat /\
      destination (host s) = [node] /\
      isRunning s = true /\ isTouching s = true /\ alertActive s = true /\
      enableSound s = true /\ audioContext s <> None).
Proof.
  intros Hr. pose proof (reachable_Inv s Hr) as [I1 I2 I3 I4 I5 I6 I7 I8].
  pose proof (reachable_AlarmInv s Hr) as [A1 A2 A3].
  destruct (alarmInterval s) as [id|] eqn:Ei.
  - right. destruct (alarmGain s) as [node|] eqn:Eg.
    2:{ destruct A1 as [_ A1]. discriminate (A1 eq_refl). }
    apply map_fst_single in I7 as [f Hf]. rewrite Hf in A3.
    apply Forall_inv in A3. cbn in A3.
    assert (Ha : alertActive s = true).
    { destruct (alertActive s); [reflexivity|].
      destruct (I6 eq_refl). discriminate. }
    exists id, node, f. repeat split; auto.
    apply A2. discriminate.
  - left. rewrite (proj1 A1 eq_refl) in *. cbn in I7, I8.
    apply map_eq_nil in I7. auto.
Qed.

(** X7. In every state the page can reach, the alarm is either off (no
    handle, no timer, no node with the browser) or running on exactly one
    timer and one gain node, the ones in the handles, and then the system
    is running, touching, alert-armed, with sound enabled: the duplicated
    timer of a second [startAlarm] cannot be reached through the
    events. *)
Theorem alarm_off_or_single (s : HandsOff) :
  reachable s ->
  (alarmInterval s = None /\ alarmGain s = None /\
   intervals (host s) = [] /\ destination (host s) = []) \/
  (exists id node freqIndex,
      alarmInterval s = Some id /\ alarmGain s = Some node /\
      intervals (host s) = [(id, freqIndex)] /\ (freqIndex < 2)%nat /\
      destination (host s) = [node] /\
      isRunning s = true /\ isTouching s = true /\ alertActive s = true /\
      enableSound s = true /\ audioContext s <> None).
Proof. apply alarm_state. Qed.

Lemma alternating_S (f k : nat) :
  (f < 2)%nat ->
  alternating f (S k) =
  nth f frequencies (of_int 0) :: alternating ((f + 1) mod 2) k.
Proof.
  intros H. unfold alternating. cbn [seq map].
  rewrite Nat.add_0_r, (Nat.mod_small f 2 H). f_equal.
  rewrite <- seq_shift, map_map. apply map_ext. intros i.
  rewrite Nat.Div0.add_mod_idemp_l. do 2 f_equal. lia.
Qed.

Lemma tick_beeps (s : HandsOff) (id : positive) (f : nat) :
  reachable s ->
  alarmInterval s = Some id ->
  intervals (host s) = [(id, f)] ->
  let s' := step s (IntervalFires id) in
  alarmInterval s' = Some id /\
  intervals (host s') = [(id, ((f + 1) mod 2)%nat)] /\
  beeps (host s') = beeps (host s) ++ [nth f frequencies (of_int 0)].
Proof.
  intros Hr Ei Hf.
  destruct (alarm_state s Hr)
    as [(E & _)|(id' & node & f' & E1 & E2 & E3 & Hlt & E4 & R & T & A & S & Ac)];
    [congruence|].
  rewrite Ei in E1. injection E1 as <-.
  rewrite Hf in E3. injection E3 as <-.
  destruct_state s. cbn in *. subst.
  destruct actx; [|congruence].
  exec. cbn. rewrite Pos.eqb_refl. exec. cbn. rewrite Pos.eqb_refl.
  repeat split.
Qed.

Lemma ticks_beeps (id : positive) (k : nat) :
  forall s f,
    reachable s ->
    alarmInterval s = Some id ->
    intervals (host s) = [(id, f)] ->
    (f < 2)%nat ->
    beeps (host (run (repeat (IntervalFires id) k) s)) =
    beeps (host s) ++ alternating f k.
Proof.
  induction k as [|k IH]; intros s f Hr Ei Hf Hlt.
  - cbn. now rewrite app_nil_r.
  - cbn [repeat run fold_left]. fold (run (repeat (IntervalFires id) k)
                                         (step s (IntervalFires id))).
    destruct (tick_beeps s id f Hr Ei Hf) as (Ei' & Hf' & Hb).
    rewrite (IH _ ((f + 1) mod 2)%nat (reachable_step _ _ Hr) Ei' Hf').
    + rewrite Hb, (alternating_S f k Hlt), <- app_assoc. reflexivity.
    + apply Nat.mod_upper_bound. discriminate.
Qed.

(** X8. While the alarm runs, the beeps of its timer alternate between
    the two frequencies, 1200 Hz and 800 Hz, continuing from the
    closure's [freqIndex]. *)
Theorem alarm_alternates (s : HandsOff) (id : positive) (k : nat) :
  reachable s ->
  alarmInterval s = Some id ->
  exists freqIndex,
    intervals (host s) = [(id, freqIndex)] /\
    beeps (host (run (repeat (IntervalFires id) k) s)) =
    beeps (host s) ++ alternating freqIndex k.
Proof.
  intros Hr Ei.
  destruct (alarm_state s Hr)
    as [(E & _)|(id' & node & f & E1 & E2 & E3 & Hlt & _)]; [congruence|].
  rewrite Ei in E1. injection E1 as <-.
  exists f. split; [exact E3|]. now apply ticks_beeps.
Qed.

(** ** Muted *)

Lemma updateTouchState_muted touchingNow dateNow (s : HandsOff) :
  enableSound s = false ->
  let s' := after (updateTouchState touchingNow dateNow) s in
  enableSound s' = false /\ beeps (host s') = beeps (host s).
Proof.
  intros H. destruct_state s. cbn in H. subst sound.
  destruct touchingNow, touching; exec.
  all: try (destruct (num_leb thr _); exec).
  all: all_cases; split; reflexivity.
Qed.

Lemma step_muted (s : HandsOff) (e : Event) :
  enableSound s = false -> is_unmute e = false ->
  enableSound (step s e) = false /\ beeps (host (step s e)) = beeps (host s).
Proof.
  intros H U.
  assert (Hhand : (exists results dateNow, e = HandResultsArrive results dateNow)
                  \/ forall results dateNow, e <> HandResultsArrive results dateNow).
  { destruct e; try (right; intros; discriminate). left; eauto. }
  destruct Hhand as [(results & dateNow & ->)|Hother].
  - rewrite step_hand_arrival. set (s1 := set_lastHandResults _ s).
    unfold after. destruct (isRunning s1) eqn:R.
    + rewrite (processFrame_running _ s1 R). set (s2 := draws _ s1).
      destruct (touchingNowOfFrame_draws s2) as (r & c & E).
      destruct r as [touchingNow|].
      * rewrite (bind_Normal _ _ _ _ _ E).
        apply (updateTouchState_muted touchingNow dateNow (draws c s2) H).
      * rewrite (bind_TypeError _ _ _ _ E). now split.
    + rewrite (processFrame_idle _ s1 R). now split.
  - destruct_state s. cbn in H. subst sound.
    destruct e; try (now elim (Hother results dateNow)); exec.
    all: try (destruct checked; [discriminate U|]; exec).
    all: try (destruct (find _ ivs) as [[? ?]|]; exec).
    all: all_cases; split; reflexivity.
Qed.

(** X9. With sound disabled no beep is ever played, whatever happens,
    until the sound toggle is checked again. *)
Theorem muted_plays_nothing (s : HandsOff) (events : list Event) :
  enableSound s = false ->
  forallb (fun e => negb (is_unmute e)) events = true ->
  enableSound (run events s) = false /\
  beeps (host (run events s)) = beeps (host s).
Proof.
  revert s. induction events as [|e events IH]; intros s H U.
  - now split.
  - cbn [forallb] in U. apply andb_true_iff in U as [Ue U].
    apply negb_true_iff in Ue.
    destruct (step_muted s e H Ue) as [H1 B1].
    cbn [run fold_left]. fold (run events (step s e)).
    destruct (IH _ H1 U) as [H2 B2]. split; [exact H2 | congruence].
Qed.

(** ** Entering ALERTING *)

(** X10. Entering ALERTING with sound enabled: the evaluation whose
    computed duration compares [>=] with the threshold arms the alert,
    logs the duration, starts the alarm (one gain node, one timer whose
    next beep is the second frequency), plays the first beep at 1200 Hz at
    once, activates the overlay and writes the duration text. *)
Theorem alert_starts_audibly (s : HandsOff) (dateNow : Z) (startTime : num) :
  reachable s ->
  touchStartTime s = Some startTime ->
  alertActive s = false ->
  enableSound s = true ->
  num_leb (touchThreshold s) (num_sub (seconds dateNow) startTime) = true ->
  let duration := num_sub (seconds dateNow) startTime in
  let s' := after (updateTouchState true dateNow) s in
  completion (updateTouchState true dateNow) s = Normal tt /\
  alertActive s' = true /\
  (exists id node,
      alarmInterval s' = Some id /\ alarmGain s' = Some node /\
      intervals (host s') = [(id, 1%nat)] /\ destination (host s') = [node]) /\
  beeps (host s') = beeps (host s) ++ [of_int 1200] /\
  console (host s') =
  console (host s) ++
  [("ALERT: Hands on face for " ++ toFixed1 duration ++ "s")%string] /\
  alertOverlay (dom s') = true /\
  durationText (dom s') = ("Duration: " ++ toFixed1 duration ++ "s")%string.
Proof.
  intros Hr S A E L. pose proof (reachable_Inv s Hr) as I.
  assert (T : isTouching s = true).
  { apply (inv_session s I). rewrite S. discriminate. }
  pose proof (inv_running s I T) as R.
  destruct I as [I1 I2 I3 I4 I5 I6 I7 I8].
  destruct_state s.
  cbn in S, A, E, T, R, I1, I2, I3, I4, I5, I6, I7, I8.
  cbn [touchThreshold] in L. subst.
  destruct (I6 eq_refl) as [-> ->]. cbn in I7. apply map_eq_nil in I7 as ->.
  destruct actx; [| exfalso; now apply I2].
  revert L. exec.
  destruct (num_leb thr _); [intros _ | discriminate]. exec.
  split; [reflexivity|]. split; [reflexivity|].
  split; [do 2 eexists; repeat split|].
  repeat split.
Qed.

(** X11. Entering ALERTING with sound disabled: the alert is armed and
    shown (overlay and duration text), but no alarm resource is created
    and no beep is played. *)
Theorem alert_visual_only_when_muted
    (s : HandsOff) (dateNow : Z) (startTime : num) :
  reachable s ->
  touchStartTime s = Some startTime ->
  alertActive s = false ->
  enableSound s = false ->
  num_leb (touchThreshold s) (num_sub (seconds dateNow) startTime) = true ->
  let s' := after (updateTouchState true dateNow) s in
  completion (updateTouchState true dateNow) s = Normal tt /\
  alertActive s' = true /\
  alertOverlay (dom s') = true /\
  durationText (dom s') =
  ("Duration: " ++ toFixed1 (num_sub (seconds dateNow) startTime) ++ "s")%string /\
  alarmInterval s' = None /\ alarmGain s' = None /\
  intervals (host s') = [] /\ destination (host s') = [] /\
  beeps (host s') = beeps (host s).
Proof.
  intros Hr S A E L. pose proof (reachable_Inv s Hr) as I.
  assert (T : isTouching s = true).
  { apply (inv_session s I). rewrite S. discriminate. }
  destruct I as [I1 I2 I3 I4 I5 I6 I7 I8].
  destruct_state s.
  cbn in S, A, E, T, I1, I2, I3, I4, I5, I6, I7, I8.
  cbn [touchThreshold] in L. subst.
  destruct (I6 eq_refl) as [-> ->]. cbn in I7. apply map_eq_nil in I7 as ->.
  revert L. exec.
  destruct (num_leb thr _); [intros _ | discriminate]. exec.
  repeat split.
Qed.

(** ** Armed and silent *)

Lemma armed_silent_step (dateNow : Z) (s : HandsOff) :
  isTouching s = true -> alertActive s = true ->
  alarmInterval s = None -> alarmGain s = None ->
  intervals (host s) = [] ->
  let s' := after (updateTouchState true dateNow) s in
  (isTouching s' = true /\ alertActive s' = true /\
   alarmInterval s' = None /\ alarmGain s' = None /\
   intervals (host s') = []) /\
  enableSound s' = enableSound s /\
  beeps (host s') = beeps (host s) /\
  alarm_starts s' = alarm_starts s.
Proof.
  intros T A I G V. destruct_state s. cbn in *. subst.
  unfold alarm_starts. exec.
  destruct (num_leb thr _); exec; repeat split;
    rewrite alarm_starts_snoc; cbn; lia.
Qed.

Lemma armed_silent_run (times : list Z) :
  forall s,
    isTouching s = true -> alertActive s = true ->
    alarmInterval s = None -> alarmGain s = None ->
    intervals (host s) = [] ->
    let s' := touching_run times s in
    alertActive s' = true /\ alarmInterval s' = None /\
    intervals (host s') = [] /\
    enableSound s' = enableSound s /\
    beeps (host s') = beeps (host s) /\
    alarm_starts s' = alarm_starts s.
Proof.
  induction times as [|t times IH]; intros s T A I G V.
  - cbn. repeat split; assumption.
  - cbn [touching_run fold_left].
    fold (touching_run times (after (updateTouchState true t) s)).
    destruct (armed_silent_step t s T A I G V)
      as ((T1 & A1 & I1 & G1 & V1) & E1 & B1 & C1).
    destruct (IH _ T1 A1 I1 G1 V1) as (A2 & I2 & V2 & E2 & B2 & C2).
    repeat split; congruence.
Qed.

(** X12. Enabling sound again during an alert does not bring the alarm
    back: the change handler only stores the flag, and the following
    evaluations of the same touch find the alert already armed and do not
    call [startAlarm]; the alert stays silent until the next session. *)
Theorem unmute_does_not_restart_alarm (s : HandsOff) (times : list Z) :
  reachable s ->
  isTouching s = true ->
  alertActive s = true ->
  enableSound s = false ->
  let unmuted := step s (SoundToggle true) in
  let s' := touching_run times unmuted in
  enableSound s' = true /\
  alertActive s' = true /\
  alarmInterval s' = None /\
  intervals (host s') = [] /\
  beeps (host s') = beeps (host s) /\
  alarm_starts s' = alarm_starts s.
Proof.
  intros Hr T A E. cbv zeta.
  destruct (alarm_state s Hr)
    as [(Ei & Eg & Ev & Ed)|(id & node & f & _ & _ & _ & _ & _ & _ & _ & _ & S & _)];
    [|congruence].
  assert (U : step s (SoundToggle true) = set_enableSound true s)
    by reflexivity.
  rewrite U.
  destruct (armed_silent_run times (set_enableSound true s))
    as (A2 & I2 & V2 & E2 & B2 & C2); try assumption.
  repeat split; assumption.
Qed.

(** ** Stopping *)

(** X13. [stop()] from any reachable state completes normally and
    leaves the system not running, not touching, not armed, the alarm
    off, the overlay inactive, the status "Camera Off" and the canvas
    cleared; the settings and the cached results are kept. *)
Theorem stop_resets (s : HandsOff) :
  reachable s ->
  let s' := step s StopClick in
  completion stop s = Normal tt /\
  isRunning s' = false /\
  isTouching s' = false /\
  touchStartTime s' = None /\
  alertActive s' = false /\
  alarmInterval s' = None /\ alarmGain s' = None /\
  intervals (host s') = [] /\ destination (host s') = [] /\
  alertOverlay (dom s') = false /\
  statusText (dom s') = "Camera Off"%string /\
  statusDot (dom s') = false /\
  ctx (dom s') =
  ctx (dom s) ++ [clearRect (of_int 0) (of_int 0)
                            (canvas_width (dom s)) (canvas_height (dom s))] /\
  (touchThreshold s' = touchThreshold s /\
   proximityThreshold s' = proximityThreshold s /\
   enableSound s' = enableSound s /\
   lastHandResults s' = lastHandResults s /\
   lastFaceResults s' = lastFaceResults s).
Proof.
  intros Hr. destruct (reachable_Inv s Hr) as [I1 I2 I3 I4 I5 I6 I7 I8].
  destruct_state s. cbn in *.
  normalize_alarm I7 I8; subst; exec.
  all: unfold without_timer, without; cbn; rewrite ?Pos.eqb_refl; cbn.
  all: repeat split; reflexivity.
Qed.

(** ** The overlay *)

Lemma overlay_updateTouchState touchingNow dateNow (s : HandsOff) :
  Inv s ->
  alertOverlay (dom s) = alertActive s ->
  let s' := after (updateTouchState touchingNow dateNow) s in
  alertOverlay (dom s') = alertActive s'.
Proof.
  intros [I1 I2 I3 I4 I5 I6 I7 I8] O. destruct_state s. cbn in *. subst.
  destruct touchingNow, touching, active; try discriminate (I4 eq_refl).
  all: try (destruct actx;
            [| exfalso; apply I2; [now apply I3 | reflexivity]]).
  all: exec.
  all: try (destruct (num_leb thr _); exec).
  all: all_cases; reflexivity.
Qed.

Lemma overlay_step (s : HandsOff) (e : Event) :
  Inv s ->
  alertOverlay (dom s) = alertActive s ->
  alertOverlay (dom (step s e)) = alertActive (step s e).
Proof.
  intros I O.
  assert (Hhand : (exists results dateNow, e = HandResultsArrive results dateNow)
                  \/ forall results dateNow, e <> HandResultsArrive results dateNow).
  { destruct e; try (right; intros; discriminate). left; eauto. }
  destruct Hhand as [(results & dateNow & ->)|Hother].
  - rewrite step_hand_arrival. set (s1 := set_lastHandResults _ s).
    unfold after. destruct (isRunning s1) eqn:R.
    + rewrite (processFrame_running _ s1 R). set (s2 := draws _ s1).
      destruct (touchingNowOfFrame_draws s2) as (r & c & E).
      destruct r as [touchingNow|].
      * rewrite (bind_Normal _ _ _ _ _ E).
        apply (overlay_updateTouchState touchingNow dateNow (draws c s2)).
        -- apply Inv_draws. subst s2. apply Inv_draws. subst s1.
           now apply Inv_set_lastHandResults.
        -- exact O.
      * rewrite (bind_TypeError _ _ _ _ E). exact O.
    + rewrite (processFrame_idle _ s1 R). exact O.
  - clear I. destruct_state s. cbn in O. subst.
    destruct e; try (now elim (Hother results dateNow)); exec.
    all: try (destruct (find _ ivs) as [[? ?]|]; exec).
    all: all_cases; reflexivity.
Qed.

(** X14. On a page whose overlay is inactive when the object is built,
    the overlay is active exactly while the alert is armed, after every
    sequence of events. *)
Theorem overlay_follows_alert (page : Dom) (events : list Event) :
  alertOverlay page = false ->
  let s := run events (new_HandsOff page) in
  alertOverlay (dom s) = alertActive s.
Proof.
  intros P. cbv zeta.
  assert (G : forall s, Inv s -> alertOverlay (dom s) = alertActive s ->
                        alertOverlay (dom (run events s)) =
                        alertActive (run events s)).
  { induction events as [|e events IH]; intros s I O; [exact O|].
    cbn [run fold_left]. fold (run events (step s e)).
    apply IH; [now apply Inv_step | now apply overlay_step]. }
  apply G; [apply Inv_new | exact P].
Qed.

(** ** Settings *)


(** ** Starting *)


End Theory.

(** * Exact arithmetic: the bounds of the proximity test *)

Section Exact.

#[local] Existing Instances rationals exact.





End Exact.

(** * Double precision: the program as the browser runs it *)

Section Binary64.

#[local] Existing Instances doubles binary64.

(** ** The two scenarios of the specification

    Threshold 1.0 s, margin 0.08, a hand on the face from 0 s. *)

Example scenario_alert :
  let at_0 := step sample_watching (HandResultsArrive hand_on_face 0) in
  let at_1000 := step at_0 (HandResultsArrive hand_on_face 1000) in
  let at_1200 := step at_1000 (HandResultsArrive hand_in_corner 1200) in
  (statusText (dom at_0), alertActive at_0, alarmInterval at_0) =
  ("TOUCHING"%string, false, None) /\
  (alertActive at_1000, durationText (dom at_1000), alarmInterval at_1000) =
  (true, "Duration: 1.0s"%string, Some 4%positive) /\
  (statusText (dom at_1200), alertActive at_1200, alarmInterval at_1200,
   intervals (host at_1200)) =
  ("Clear"%string, false, None, []).
Proof. vm_compute. repeat split; reflexivity. Qed.

Example scenario_short_touch :
  let at_0 := step sample_watching (HandResultsArrive hand_on_face 0) in
  let at_500 := step at_0 (HandResultsArrive hand_in_corner 500) in
  (alertActive at_0, alertActive at_500, statusText (dom at_500)) =
  (false, false, "Clear"%string) /\
  alarm_starts at_500 = 0%nat.
Proof. vm_compute. repeat split; reflexivity. Qed.

(** ** Rounding in the proximity test *)

(** The face box (0.5, 0.5, 0.25, 0.25) with margin 0.08: the left bound
    the code computes is the double nearest to 0.295, which is below the
    exact value of [0.5 - 0.125 - 0.08] on the doubles 0.5, 0.125 and
    0.08.  A key point at that double passes the test of the code. *)
Example rounded_bound_is_inclusive :
  let p := mkLandmark (decimal 295 3) (decimal 5 1) in
  let b := mkBoundingBox (decimal 5 1) (decimal 5 1)
                         (decimal 25 2) (decimal 25 2) in
  let margin := decimal 8 2 in
  inside p (expandedBox b margin) = true /\
  xMin (expandedBox b margin) = x p /\
  exists xp xc half m,
    float_value (x p) = Some xp /\
    float_value (xCenter b) = Some xc /\
    float_value (num_div (width b) (of_int 2)) = Some half /\
    float_value margin = Some m /\
    xp < xc - half - m.
Proof.
  cbv zeta. split; [vm_compute; reflexivity|].
  split; [vm_compute; reflexivity|].
  do 4 eexists. repeat split; try (vm_compute; reflexivity).
Qed.

(** With margin 0 the bounds are inclusive in double precision too, at
    these points on the four sides of the sample face. *)
Example boundary_inclusive_in_doubles :
  let s := set_proximityThreshold (of_int 0) sample_watching in
  let near px py :=
    completion (isHandNearFace (hand_at px py) (boundingBox centre_face)) s in
  near (decimal 4 1) (decimal 5 1) = Normal true /\
  near (decimal 6 1) (decimal 5 1) = Normal true /\
  near (decimal 5 1) (decimal 4 1) = Normal true /\
  near (decimal 5 1) (decimal 6 1) = Normal true /\
  near (decimal 39 2) (decimal 5 1) = Normal false /\
  near (decimal 5 1) (decimal 61 2) = Normal false.
Proof. vm_compute. repeat split; reflexivity. Qed.

(** ** The claims at sample inputs *)

Lemma touchingNow_no_hysteresis_witness :
  completion touchingNowOfFrame sample_alerting =
  completion touchingNowOfFrame
    (step sample_watching (HandResultsArrive hand_on_face 99000)).
Proof.
  apply touchingNow_no_hysteresis; reflexivity.
Defined.

(** C1, as stated, fails: with two faces cached and the only hand at the
    second one, the evaluation calls [updateTouchState true] and the
    machine is touching, although no key point of the hand is inside the
    expanded box of the first face. *)
Lemma first_face_only_counterexample :
  Forall well_formed_hand (hands_of sample_two_faces) /\
  calls (host sample_two_faces) = [call_updateTouchState true] /\
  isTouching sample_two_faces = true /\
  touching_first_face_only sample_two_faces = false.
Proof.
  split; [repeat constructor|]. vm_compute. repeat split; reflexivity.
Qed.

Lemma touchingNow_any_face_witness :
  exists touchingNow rest,
    calls (host (after (processFrame 10500) sample_two_faces)) =
    calls (host sample_two_faces) ++ call_updateTouchState touchingNow :: rest
    /\ filter is_evaluation rest = [] /\
    (touchingNow = true <->
     exists d landmarks idx p,
       In d (faces_of sample_two_faces) /\
       In landmarks (hands_of sample_two_faces) /\
       In idx keyPoints /\ nth_error landmarks idx = Some p /\
       inside p (expandedBox (boundingBox d)
                             (proximityThreshold sample_two_faces)) = true).
Proof.
  apply (touchingNow_any_face sample_two_faces 10500).
  - reflexivity.
  - reflexivity.
Defined.

(** C2, the code at the failing input. The alarm of [sample_alerting] is
    running on timer 4 and node 1.  A second [startAlarm] registers a
    second timer and connects a second node, and overwrites the handles of
    the first ones, which [stopAlarm] then leaves behind. *)
Theorem startAlarm_twice_duplicates_timer :
  let s := sample_alerting in
  let s' := after startAlarm s in
  (enableSound s = true /\ alertActive s = true /\
   alarmInterval s = Some 4%positive /\
   intervals (host s) = [(4%positive, 1%nat)] /\
   alarmGain s = Some 1%positive /\
   destination (host s) = [1%positive]) /\
  (completion startAlarm s = Normal tt /\
   alarmInterval s' = Some 8%positive /\
   intervals (host s') = [(4%positive, 1%nat); (8%positive, 1%nat)] /\
   alarmGain s' = Some 5%positive /\
   destination (host s') = [1%positive; 5%positive]) /\
  (intervals (host (after stopAlarm s')) = [(4%positive, 1%nat)] /\
   destination (host (after stopAlarm s')) = [1%positive]).
Proof. vm_compute. repeat split; reflexivity. Qed.

(** C3, as stated, fails in both directions, by the rounding of
    [Date.now() / 1000] and of the subtraction.

    Late: threshold 1 s, clock readings 1 ms and 1001 ms.  The time
    elapsed is exactly 1 s, but the code computes
    [1.001 - 0.001 = 0.9999999999999999]: the alert is not armed and the
    alarm is not started at that evaluation.

    Early: threshold 1.1 s (the double nearest to 1.1, which is above
    1.1), clock readings 1700000000001 ms and 1700000001101 ms.  The time
    elapsed is exactly 1.1 s, below the threshold, but the computed
    duration compares [>=] with it: the alert is armed and the alarm is
    started. *)
Lemma alert_at_exact_elapsed_counterexample :
  (let now := after (updateTouchState true 1001)
                    (touching_run [1%Z] sample_watching) in
   float_value (touchThreshold sample_watching) = Some 1 /\
   1 <= (inject_Z 1001 - inject_Z 1) / 1000 /\
   alertActive now = false /\
   alarm_starts now = 0%nat) /\
  (let now := after (updateTouchState true 1700000001101)
                    (touching_run [1700000000001%Z] sample_threshold_1_1) in
   exists threshold,
     float_value (touchThreshold sample_threshold_1_1) = Some threshold /\
     (inject_Z 1700000001101 - inject_Z 1700000000001) / 1000 < threshold /\
     alertActive now = true /\
     alarm_starts now = 1%nat).
Proof.
  split; cbv zeta.
  - split; [vm_compute; reflexivity|].
    split; [vm_compute; discriminate|].
    split; vm_compute; reflexivity.
  - eexists. split; [vm_compute; reflexivity|].
    split; [vm_compute; reflexivity|].
    split; vm_compute; reflexivity.
Qed.

Lemma alerting_entered_once_witness :
  let s := sample_watching in
  let crossed v := num_leb (touchThreshold s) (elapsed 10000 v) in
  let before := touching_run [10000; 10500]%Z s in
  let now := after (updateTouchState true 11000) before in
  isTouching now = true /\
  touchStartTime now = Some (seconds 10000) /\
  alertActive before = existsb crossed [10500%Z] /\
  alertActive now = existsb crossed [10500%Z] || crossed 11000%Z /\
  alarm_starts now =
  (alarm_starts before +
   if crossed 11000%Z && negb (existsb crossed [10500%Z])
   then 1 else 0)%nat /\
  alarm_starts now =
  (alarm_starts s +
   if existsb crossed [10500%Z] || crossed 11000%Z then 1 else 0)%nat.
Proof.
  apply (alerting_entered_once sample_watching [10000; 10500]%Z 11000).
  reflexivity.
Defined.

Lemma gap_resets_session_witness :
  let clear := after (updateTouchState false 11200) sample_alerting in
  let fresh := after (updateTouchState true 11300) clear in
  let next := after (updateTouchState true 11900) fresh in
  (isTouching clear = false /\
   touchStartTime clear = None /\
   alertActive clear = false /\
   alarmInterval clear = None /\
   alarmGain clear = None /\
   alarmOscillator clear = None /\
   intervals (host clear) = [] /\
   destination (host clear) = [] /\
   statusText (dom clear) = "Clear"%string /\
   statusDot (dom clear) = false /\
   alertOverlay (dom clear) = false) /\
  (isTouching fresh = true /\
   touchStartTime fresh = Some (seconds 11300) /\
   alertActive fresh = false /\
   alarm_starts fresh = alarm_starts clear) /\
  alertActive next =
  num_leb (touchThreshold sample_alerting) (elapsed 11300 11900).
Proof.
  apply (gap_resets_session sample_alerting 11200 11300 11900).
  reachable_run.
Defined.

Lemma sound_off_while_alerting_witness :
  let s := sample_alerting in
  let s' := after (soundToggle_change false) s in
  completion (soundToggle_change false) s = Normal tt /\
  (enableSound s' = false /\
   alarmInterval s' = None /\ alarmGain s' = None /\
   alarmOscillator s' = None /\
   intervals (host s') = [] /\ destination (host s') = [] /\
   forall id, step s' (IntervalFires id) = s') /\
  (alertActive s' = true /\
   isTouching s' = true /\
   touchStartTime s' = touchStartTime s /\
   dom s' = dom s /\
   isRunning s' = isRunning s /\
   touchThreshold s' = touchThreshold s /\
   proximityThreshold s' = proximityThreshold s /\
   lastHandResults s' = lastHandResults s /\
   lastFaceResults s' = lastFaceResults s /\
   audioContext s' = audioContext s /\
   beeps (host s') = beeps (host s) /\
   console (host s') = console (host s)).
Proof.
  apply (sound_off_while_alerting sample_alerting).
  - reachable_run.
  - reflexivity.
  - reflexivity.
Defined.

(** C5, as stated, fails: [sample_alerting] started touching at 10.000 s;
    an evaluation at 9.500 s completes normally and shows a negative
    duration, and so does one at 8.650 s, where the subtraction rounds to
    the double below -1.35 and [toFixed(1)] prints -1.3. *)
Lemma negative_duration_counterexample :
  let s := sample_alerting in
  let s' := step s (HandResultsArrive hand_on_face 9500) in
  let s'' := step s (HandResultsArrive hand_on_face 8650) in
  touchStartTime s = Some (seconds 10000) /\
  completion (hands_onResults hand_on_face 9500) s = Normal tt /\
  alertOverlay (dom s') = true /\
  durationText (dom s') = "Duration: -0.5s"%string /\
  completion (hands_onResults hand_on_face 8650) s = Normal tt /\
  durationText (dom s'') = "Duration: -1.3s"%string.
Proof. vm_compute. repeat split; reflexivity. Qed.

Lemma clock_backward_not_clamped_witness :
  let duration := num_sub (seconds 9500) (seconds 10000) in
  let s' := after (updateTouchState true 9500) sample_alerting in
  completion (updateTouchState true 9500) sample_alerting = Normal tt /\
  (exists digits, toFixed1 duration = ("-" ++ digits)%string) /\
  (if true && alertActive s'
   then durationText (dom s') =
        ("Duration: " ++ toFixed1 duration ++ "s")%string
   else durationText (dom s') = durationText (dom sample_alerting)).
Proof.
  apply (clock_backward_not_clamped sample_alerting true 9500 (seconds 10000)).
  - reachable_run.
  - reflexivity.
  - reflexivity.
Defined.

(** C9, as stated, fails: a hand result that arrives while the system is
    not running is cached and no evaluation is run. *)
Lemma hand_arrival_idle_counterexample :
  let s := sample_stopped in
  let s' := step s (HandResultsArrive hand_on_face 12000) in
  isRunning s = false /\
  lastHandResults s' = Some hand_on_face /\
  evaluations s' = evaluations s /\
  calls (host s') = calls (host s) /\
  ctx (dom s') = ctx (dom s) /\
  isTouching s' = false.
Proof. vm_compute. repeat split; reflexivity. Qed.

Lemma evaluation_on_hand_arrival_witness :
  evaluations (step sample_watching (HandResultsArrive hand_on_face 10000)) =
  (evaluations sample_watching +
   if evaluates sample_watching (HandResultsArrive hand_on_face 10000)
   then 1 else 0)%nat.
Proof.
  exact (proj1 (proj2 (evaluation_on_hand_arrival
                         sample_watching
                         (HandResultsArrive hand_on_face 10000)))).
Defined.

(** A short hand is evaluated while no face is cached, with
    [touchingNow = false], and ends the frame with a TypeError, without an
    evaluation, once a face is cached. *)
Example short_hand_arrival :
  let no_face := step (new_HandsOff sample_page)
                      (StartClick (Starts (of_int 640) (of_int 480))) in
  (evaluates no_face (HandResultsArrive short_hand 10000) = true /\
   calls (host (step no_face (HandResultsArrive short_hand 10000))) =
   [call_updateTouchState false]) /\
  (evaluates sample_watching (HandResultsArrive short_hand 10000) = false /\
   completion (hands_onResults short_hand 10000) sample_watching = TypeError /\
   calls (host (step sample_watching (HandResultsArrive short_hand 10000))) =
   []).
Proof. vm_compute. repeat split; reflexivity. Qed.

Lemma idle_hand_arrival_changes_nothing_witness :
  let s := sample_stopped in
  let s' := step s (HandResultsArrive hand_on_face 12000) in
  processFrame 12000 s = (Normal tt, s) /\
  s' = set_lastHandResults (Some hand_on_face) s /\
  (isTouching s' = isTouching s /\
   touchStartTime s' = touchStartTime s /\
   alertActive s' = alertActive s /\
   alarmOscillator s' = alarmOscillator s /\
   alarmGain s' = alarmGain s /\
   alarmInterval s' = alarmInterval s /\
   host s' = host s /\
   statusText (dom s') = statusText (dom s) /\
   ctx (dom s') = ctx (dom s) /\
   dom s' = dom s).
Proof.
  apply (idle_hand_arrival_changes_nothing sample_stopped hand_on_face 12000).
  reflexivity.
Defined.

(** ** The further properties at sample inputs *)

Lemma isHandNearFace_key_points_only_witness :
  isHandNearFace (hand_at (decimal 5 1) (decimal 5 1))
                 (boundingBox centre_face) sample_watching =
  isHandNearFace (repeat (mkLandmark (decimal 5 1) (decimal 5 1)) 30)
                 (boundingBox centre_face) sample_watching.
Proof.
  apply isHandNearFace_key_points_only.
  intros idx [<-|[<-|[<-|[<-|[<-|[<-|[]]]]]]]; reflexivity.
Defined.

Lemma isHandNearFace_short_hand_witness :
  completion (isHandNearFace (firstn 5 (hand_at (decimal 5 1) (decimal 5 1)))
                             (boundingBox centre_face))
             sample_watching <> Normal false /\
  completion (isHandNearFace [] (boundingBox centre_face)) sample_watching =
  TypeError.
Proof.
  apply isHandNearFace_short_hand. reflexivity.
Defined.

Lemma processFrame_nothing_to_compare_witness :
  let s := step sample_alerting
                (HandResultsArrive (mkHandResults None) 11500) in
  let s' := after (processFrame 12000) s in
  completion (processFrame 12000) s = Normal tt /\
  (exists rest, calls (host s') =
                calls (host s) ++ call_updateTouchState false :: rest) /\
  isTouching s' = false /\
  touchStartTime s' = None /\
  alertActive s' = false /\
  alertOverlay (dom s') = false /\
  statusText (dom s') = "Clear"%string.
Proof.
  apply (processFrame_nothing_to_compare
           (step sample_alerting (HandResultsArrive (mkHandResults None) 11500))
           12000).
  - reflexivity.
  - right; reflexivity.
Defined.

Lemma processFrame_malformed_hand_witness :
  let s := set_lastHandResults (Some short_hand) sample_alerting in
  let s' := after (processFrame 12000) s in
  completion (processFrame 12000) s = TypeError /\
  (exists cmds, s' = draws cmds s) /\
  calls (host s') = calls (host s) /\
  isTouching s' = isTouching s /\
  touchStartTime s' = touchStartTime s /\
  alertActive s' = alertActive s /\
  intervals (host s') = intervals (host s).
Proof.
  apply (processFrame_malformed_hand
           (set_lastHandResults (Some short_hand) sample_alerting) 12000
           (firstn 5 (hand_at (decimal 5 1) (decimal 5 1)))).
  - reflexivity.
  - vm_compute; discriminate.
  - left; reflexivity.
  - reflexivity.
Defined.

Lemma processFrame_clears_first_witness :
  exists rest,
    ctx (dom (after (processFrame 12000) sample_alerting)) =
    ctx (dom sample_alerting) ++
    clearRect (of_int 0) (of_int 0) (canvas_width (dom sample_alerting))
              (canvas_height (dom sample_alerting)) :: rest.
Proof.
  apply (processFrame_clears_first sample_alerting 12000). reflexivity.
Defined.

Lemma alarm_off_or_single_witness :
  (alarmInterval sample_alerting = None /\
   alarmGain sample_alerting = None /\
   intervals (host sample_alerting) = [] /\
   destination (host sample_alerting) = []) \/
  (exists id node freqIndex,
      alarmInterval sample_alerting = Some id /\
      alarmGain sample_alerting = Some node /\
      intervals (host sample_alerting) = [(id, freqIndex)] /\
      (freqIndex < 2)%nat /\
      destination (host sample_alerting) = [node] /\
      isRunning sample_alerting = true /\
      isTouching sample_alerting = true /\
      alertActive sample_alerting = true /\
      enableSound sample_alerting = true /\
      audioContext sample_alerting <> None).
Proof.
  apply (alarm_off_or_single sample_alerting). reachable_run.
Defined.

Lemma alarm_alternates_witness :
  exists freqIndex,
    intervals (host sample_alerting) = [(4%positive, freqIndex)] /\
    beeps (host (run (repeat (IntervalFires 4) 3) sample_alerting)) =
    beeps (host sample_alerting) ++ alternating freqIndex 3.
Proof.
  apply (alarm_alternates sample_alerting 4 3).
  - reachable_run.
  - reflexivity.
Defined.

(** The first beep is played by [startAlarm], the next three by the
    timer. *)
Example alarm_alternates_sample :
  beeps (host (run (repeat (IntervalFires 4) 3) sample_alerting)) =
  [of_int 1200; of_int 800; of_int 1200; of_int 800].
Proof. vm_compute. reflexivity. Qed.

Lemma muted_plays_nothing_witness :
  enableSound
    (run [HandResultsArrive hand_on_face 12000; IntervalFires 4;
          ThresholdInput (of_int 0); HandResultsArrive hand_on_face 13000]
         (step sample_touching (SoundToggle false))) = false /\
  beeps (host (run [HandResultsArrive hand_on_face 12000; IntervalFires 4;
                    ThresholdInput (of_int 0);
                    HandResultsArrive hand_on_face 13000]
                   (step sample_touching (SoundToggle false)))) =
  beeps (host (step sample_touching (SoundToggle false))).
Proof.
  apply (muted_plays_nothing (step sample_touching (SoundToggle false))).
  - reflexivity.
  - reflexivity.
Defined.

Lemma alert_starts_audibly_witness :
  let s := sample_touching in
  let duration := num_sub (seconds 11000) (seconds 10000) in
  let s' := after (updateTouchState true 11000) s in
  completion (updateTouchState true 11000) s = Normal tt /\
  alertActive s' = true /\
  (exists id node,
      alarmInterval s' = Some id /\ alarmGain s' = Some node /\
      intervals (host s') = [(id, 1%nat)] /\ destination (host s') = [node]) /\
  beeps (host s') = beeps (host s) ++ [of_int 1200] /\
  console (host s') =
  console (host s) ++
  [("ALERT: Hands on face for " ++ toFixed1 duration ++ "s")%string] /\
  alertOverlay (dom s') = true /\
  durationText (dom s') = ("Duration: " ++ toFixed1 duration ++ "s")%string.
Proof.
  apply (alert_starts_audibly sample_touching 11000 (seconds 10000)).
  - reachable_run.
  - reflexivity.
  - reflexivity.
  - reflexivity.
  - reflexivity.
Defined.

Lemma alert_visual_only_when_muted_witness :
  let s := step sample_touching (SoundToggle false) in
  let s' := after (updateTouchState true 11000) s in
  completion (updateTouchState true 11000) s = Normal tt /\
  alertActive s' = true /\
  alertOverlay (dom s') = true /\
  durationText (dom s') =
  ("Duration: " ++
   toFixed1 (num_sub (seconds 11000) (seconds 10000)) ++ "s")%string /\
  alarmInterval s' = None /\ alarmGain s' = None /\
  intervals (host s') = [] /\ destination (host s') = [] /\
  beeps (host s') = beeps (host s).
Proof.
  apply (alert_visual_only_when_muted
           (step sample_touching (SoundToggle false)) 11000 (seconds 10000)).
  - apply reachable_step. reachable_run.
  - reflexivity.
  - reflexivity.
  - reflexivity.
  - reflexivity.
Defined.

Lemma unmute_does_not_restart_alarm_witness :
  let unmuted := step sample_muted (SoundToggle true) in
  let s' := touching_run [11500; 12000]%Z unmuted in
  enableSound s' = true /\
  alertActive s' = true /\
  alarmInterval s' = None /\
  intervals (host s') = [] /\
  beeps (host s') = beeps (host sample_muted) /\
  alarm_starts s' = alarm_starts sample_muted.
Proof.
  apply (unmute_does_not_restart_alarm sample_muted [11500; 12000]%Z).
  - reachable_run.
  - reflexivity.
  - reflexivity.
  - reflexivity.
Defined.

Lemma stop_resets_witness :
  let s := sample_alerting in
  let s' := step s StopClick in
  completion stop s = Normal tt /\
  isRunning s' = false /\
  isTouching s' = false /\
  touchStartTime s' = None /\
  alertActive s' = false /\
  alarmInterval s' = None /\ alarmGain s' = None /\
  intervals (host s') = [] /\ destination (host s') = [] /\
  alertOverlay (dom s') = false /\
  statusText (dom s') = "Camera Off"%string /\
  statusDot (dom s') = false /\
  ctx (dom s') =
  ctx (dom s) ++ [clearRect (of_int 0) (of_int 0)
                            (canvas_width (dom s)) (canvas_height (dom s))] /\
  (touchThreshold s' = touchThreshold s /\
   proximityThreshold s' = proximityThreshold s /\
   enableSound s' = enableSound s /\
   lastHandResults s' = lastHandResults s /\
   lastFaceResults s' = lastFaceResults s).
Proof.
  apply (stop_resets sample_alerting). reachable_run.
Defined.

Lemma overlay_follows_alert_witness :
  let s := run [StartClick (Starts (of_int 640) (of_int 480));
                FaceResultsArrive (mkFaceResults (Some [centre_face]));
                HandResultsArrive hand_on_face 10000;
                HandResultsArrive hand_on_face 11000;
                SoundToggle false]
               (new_HandsOff sample_page) in
  alertOverlay (dom s) = alertActive s.
Proof.
  apply (overlay_follows_alert sample_page). reflexivity.
Defined.

(** The margins of the three sensitivity levels, as doubles. *)
Example sensitivity_margins :
  map (fun level =>
         float_value
           (proximityThreshold (step sample_watching (SensitivityInput level))))
      [Low; Medium; High] =
  [Some (1080863910568919 # 9007199254740992);
   Some (5764607523034235 # 72057594037927936);
   Some (3602879701896397 # 72057594037927936)].
Proof. vm_compute. reflexivity. Qed.

End Binary64.

